(** * gent/snap: snapshot testing harness for bubbletea models

    A shallow embedding of [snap/snap.go] and the properties of its
    filename sanitizer, script parser, snapshot store and replay engine.

    Go strings and byte slices are sequences of bytes: both are [string]
    here, an [ascii] being one byte.  Runes are [Z].  The file system is a
    finite map from paths to contents, with explicit read and write faults.
    Effectful code runs in a small monad that threads the world (file
    system and a trace of the calls made) and stops at a panic.

    The helpers of package [gent] (the set backed by a map, [Map],
    [Filter], [NewOption]) and the file assertions of package [assfs]
    follow, each with its properties. *)

From Stdlib Require Import ZArith Zbitwise Ascii String List Bool Lia DecimalString
  DecimalN.
From stdpp Require Import base option gmap strings.

Local Open Scope list_scope.
Local Open Scope string_scope.
Local Open Scope Z_scope.

(** ** Bytes and strings *)

Module Bytes.

Definition byte_val (c : ascii) : Z := Z.of_N (N_of_ascii c).

Fixpoint drop (n : nat) (s : string) : string :=
  match n, s with
  | O, _ => s
  | S _, EmptyString => EmptyString
  | S k, String _ t => drop k t
  end.

Fixpoint take (n : nat) (s : string) : string :=
  match n, s with
  | O, _ => EmptyString
  | S _, EmptyString => EmptyString
  | S k, String c t => String c (take k t)
  end.

Fixpoint all (p : ascii -> bool) (s : string) : bool :=
  match s with
  | EmptyString => true
  | String c t => p c && all p t
  end.

Fixpoint rev_onto (s acc : string) : string :=
  match s with
  | EmptyString => acc
  | String c t => rev_onto t (String c acc)
  end.

Definition reverse (s : string) : string := rev_onto s EmptyString.

(** [strings.Split(s, sep)] and [bytes.Split(s, sep)] for a separator of
    one byte: the pieces between the occurrences of [sep], the empty ones
    included; one piece (the input) when [sep] does not occur. *)
Fixpoint Split (sep : ascii) (s : string) : list string :=
  match s with
  | EmptyString => [EmptyString]
  | String c t =>
      if Ascii.eqb c sep then EmptyString :: Split sep t
      else match Split sep t with
           | h :: r => String c h :: r
           | [] => [String c EmptyString]
           end
  end.

(** [strings.Join(elems, sep)] for a separator of one byte. *)
Fixpoint Join (sep : ascii) (elems : list string) : string :=
  match elems with
  | [] => EmptyString
  | [e] => e
  | e :: r => e ++ String sep (Join sep r)
  end.

(** The pieces put end to end. *)
Definition concat (pieces : list string) : string :=
  fold_right String.append EmptyString pieces.

Fixpoint map (f : ascii -> string) (s : string) : string :=
  match s with
  | EmptyString => EmptyString
  | String c t => f c ++ map f t
  end.

Definition is_ascii (c : ascii) : bool := byte_val c <? 0x80.

(** [strings.HasPrefix(s, p)] *)
Definition HasPrefix (s p : string) : bool := String.prefix p s.

End Bytes.

(** ** UTF-8 decoding ([unicode/utf8]) *)

Module utf8.

Definition RuneError : Z := 0xFFFD.
Definition RuneSelf : Z := 0x80.
Definition locb : Z := 0x80.
Definition hicb : Z := 0xBF.

(** The table [first] of the Go library with its accept ranges: what the
    first byte of an encoding says about the rest. *)
Inductive first_info :=
| AS                                 (* ASCII, size 1 *)
| XX                                 (* invalid first byte *)
| SZ (size : nat) (lo hi : Z).       (* size and the range of the 2nd byte *)

Definition first (s0 : Z) : first_info :=
  if s0 <? 0x80 then AS
  else if s0 <? 0xC2 then XX
  else if s0 <? 0xE0 then SZ 2 locb hicb
  else if s0 =? 0xE0 then SZ 3 0xA0 hicb
  else if s0 <? 0xED then SZ 3 locb hicb
  else if s0 =? 0xED then SZ 3 locb 0x9F
  else if s0 <? 0xF0 then SZ 3 locb hicb
  else if s0 =? 0xF0 then SZ 4 0x90 hicb
  else if s0 <? 0xF4 then SZ 4 locb hicb
  else if s0 =? 0xF4 then SZ 4 locb 0x8F
  else XX.

Definition cont (b : Z) : bool := (locb <=? b) && (b <=? hicb).

(** [utf8.DecodeRuneInString]: the first rune of [s] and its width in
    bytes; [(RuneError, 0)] on the empty string and [(RuneError, 1)] on an
    invalid encoding. *)
Definition DecodeRuneInString (s : string) : Z * nat :=
  match s with
  | EmptyString => (RuneError, 0%nat)
  | String c0 t =>
      let s0 := Bytes.byte_val c0 in
      match first s0 with
      | AS => (s0, 1%nat)
      | XX => (RuneError, 1%nat)
      | SZ sz lo hi =>
          if (String.length s <? sz)%nat then (RuneError, 1%nat) else
          match t with
          | EmptyString => (RuneError, 1%nat)
          | String c1 t1 =>
              let s1 := Bytes.byte_val c1 in
              if (s1 <? lo) || (hi <? s1) then (RuneError, 1%nat) else
              if (sz <=? 2)%nat then
                (Z.lor (Z.shiftl (Z.land s0 0x1F) 6) (Z.land s1 0x3F), 2%nat)
              else
              match t1 with
              | EmptyString => (RuneError, 1%nat)
              | String c2 t2 =>
                  let s2 := Bytes.byte_val c2 in
                  if negb (cont s2) then (RuneError, 1%nat) else
                  if (sz <=? 3)%nat then
                    (Z.lor (Z.lor (Z.shiftl (Z.land s0 0x0F) 12)
                                  (Z.shiftl (Z.land s1 0x3F) 6))
                           (Z.land s2 0x3F), 3%nat)
                  else
                  match t2 with
                  | EmptyString => (RuneError, 1%nat)
                  | String c3 _ =>
                      let s3 := Bytes.byte_val c3 in
                      if negb (cont s3) then (RuneError, 1%nat) else
                      (Z.lor (Z.lor (Z.lor (Z.shiftl (Z.land s0 0x07) 18)
                                           (Z.shiftl (Z.land s1 0x3F) 12))
                                    (Z.shiftl (Z.land s2 0x3F) 6))
                             (Z.land s3 0x3F), 4%nat)
                  end
              end
          end
      end
  end.

(** The runes of a string from left to right, each with the bytes that
    encode it.  [fuel] bounds the number of runes; the length of the string
    is always enough, a rune taking at least one byte. *)
Fixpoint scan (fuel : nat) (s : string) : list (Z * string) :=
  match fuel with
  | O => []
  | S f =>
      match s with
      | EmptyString => []
      | String _ _ =>
          let '(r, w) := DecodeRuneInString s in
          (r, Bytes.take w s) :: scan f (Bytes.drop w s)
      end
  end.

Definition runes (s : string) : list (Z * string) := scan (String.length s) s.


(** The conversion [[]rune(s)] *)
Definition to_runes (s : string) : list Z := List.map fst (runes s).

End utf8.

(** ** FilenameSanitizer *)

(** The character class of [nonSafeFilenamePattern], [[^0-9a-zA-Z-._]],
    matches one rune that is none of the listed ones. *)
Definition safe_rune (r : Z) : bool :=
  ((0x30 <=? r) && (r <=? 0x39))         (* 0-9 *)
  || ((0x61 <=? r) && (r <=? 0x7A))      (* a-z *)
  || ((0x41 <=? r) && (r <=? 0x5A))      (* A-Z *)
  || (r =? 0x2D)                         (* - *)
  || (r =? 0x2E)                         (* . *)
  || (r =? 0x5F).                        (* _ *)

Definition nonSafeFilenamePattern (r : Z) : bool := negb (safe_rune r).

Definition safe_byte (c : ascii) : bool := safe_rune (Bytes.byte_val c).

(** [re.ReplaceAllString(s, repl)] for a pattern that matches exactly one
    rune: the regexp engine steps through [s] rune by rune, copies the
    bytes of a rune that does not match and puts [repl] for one that
    does. *)
Definition ReplaceAllString (re : Z -> bool) (s repl : string) : string :=
  Bytes.concat
    (List.map (fun '(r, bytes) => if re r then repl else bytes) (utf8.runes s)).

Definition ToSafeFilename (s : string) : string :=
  ReplaceAllString nonSafeFilenamePattern s "_".

(** ** Formatting ([fmt.Sprintf]) *)

Module fmt.

Definition decimal (n : N) : string := NilEmpty.string_of_uint (N.to_uint n).

Fixpoint zeros (n : nat) : string :=
  match n with
  | O => EmptyString
  | S k => String "0" (zeros k)
  end.

Definition pad0 (width : nat) (digits : string) : string :=
  zeros (width - String.length digits)%nat ++ digits.

(** The verb [%03d] on an [int]: the sign, when there is one, counts in
    the width. *)
Definition d03 (i : Z) : string :=
  if i <? 0 then String "-" (pad0 2 (decimal (Z.to_N (- i))))
  else pad0 3 (decimal (Z.to_N i)).

(** [fmt.Sprintf("%s_%03d", s, i)] *)
Definition Sprintf_s_03d (s : string) (i : Z) : string := s ++ "_" ++ d03 i.

(** [fmt.Sprintf("%s.txt", s)] *)
Definition Sprintf_s_txt (s : string) : string := s ++ ".txt".

End fmt.


(** ** The operating system

    [files] holds the regular files and their content.  A path in
    [read_fault] cannot be read and one in [write_fault] cannot be written,
    whatever the reason (permissions, a directory in the way, a missing
    parent directory): [os.ReadFile] and [os.WriteFile] then return an
    error that is not "does not exist". *)

Inductive error :=
| ErrNotExist (op path : string)
| ErrOther (op path : string).

(** [os.IsNotExist] *)
Definition IsNotExist (e : error) : bool :=
  match e with
  | ErrNotExist _ _ => true
  | ErrOther _ _ => false
  end.

Record OS := mkOS {
  files : gmap string string;
  read_fault : gset string;
  write_fault : gset string
}.

Definition os_ReadFile (p : string) (o : OS) : string + error :=
  if decide (p ∈ read_fault o) then inr (ErrOther "open" p)
  else match files o !! p with
       | Some content => inl content
       | None => inr (ErrNotExist "open" p)
       end.

Definition os_WriteFile (p content : string) (o : OS) : option error * OS :=
  if decide (p ∈ write_fault o) then (Some (ErrOther "open" p), o)
  else (None, mkOS (<[p := content]> (files o)) (read_fault o) (write_fault o)).

(** ** Messages, commands and models ([bubbletea]) *)

Inductive KeyType := KeyRunes | KeyEnter | KeyTab | KeyEsc | KeyUp | KeyDown.

(** [tea.KeyMsg]; the field [Type] is [Type_] here. *)
Record KeyMsg := mkKeyMsg {
  Type_ : KeyType;
  Runes : list Z;
  Alt : bool
}.

(** [tea.Msg] is [interface{}]: the nil interface, a key message, a
    [tea.Cmd] that was stored in the interface (a function, or the nil
    function), or a value of a type of the model's own.  [tea.Cmd] is
    [func() tea.Msg]; nil is [None]. *)
Inductive Msg :=
| MsgNil
| MsgKey (k : KeyMsg)
| MsgCmd (c : unit -> Msg)
| MsgCmdNil
| MsgUser (tag : string).

Definition Cmd : Type := option (unit -> Msg).

(** The conversion of a [tea.Cmd] to [tea.Msg], implicit in Go when a
    command is passed where a message is expected. *)
Definition Msg_of_Cmd (cmd : Cmd) : Msg :=
  match cmd with
  | Some c => MsgCmd c
  | None => MsgCmdNil
  end.

(** [tea.Model].  A model is a value of some state type [S]; its methods
    are pure functions of it. *)
Class Model (S : Type) := {
  Init : S -> Cmd;
  Update : S -> Msg -> S * Cmd;
  View : S -> string
}.

(** ** The world and the monad of effects *)

(** The calls a run makes, in order. *)
Inductive Call :=
| CallInit
| CallView
| CallUpdate (msg : Msg)
| CallCmd (result : Msg)                       (* [cmd()] gave [result] *)
| CallReadFile (p : string)
| CallWriteFile (p content : string)
| CallNewSnapshot (name : string) (verify : bool)
| CallEqual (expected actual message : string) (failed : bool).

Record World := mkWorld {
  os : OS;
  trace : list Call
}.

Inductive panic_value :=
| PanicError (e : error)
| PanicString (s : string).

Inductive Outcome (A : Type) :=
| Done (a : A)
| Panicked (v : panic_value).
Arguments Done {A} a.
Arguments Panicked {A} v.

Definition M (A : Type) : Type := World -> Outcome A * World.

#[global] Instance M_ret : MRet M := fun A (a : A) (w : World) => (Done a, w).

#[global] Instance M_bind : MBind M :=
  fun A B (f : A -> M B) (m : M A) (w : World) =>
    match m w with
    | (Done a, w') => f a w'
    | (Panicked v, w') => (Panicked v, w')
    end.

Definition panic {A : Type} (v : panic_value) : M A :=
  fun w => (Panicked v, w).

Definition call (c : Call) : M unit :=
  fun w => (Done tt, mkWorld (os w) (trace w ++ [c])%list).

Definition sys {A : Type} (f : OS -> A * OS) : M A :=
  fun w => let '(a, o) := f (os w) in (Done a, mkWorld o (trace w)).

Definition ReadFile (p : string) : M (string + error) :=
  call (CallReadFile p);;
  sys (fun o => (os_ReadFile p o, o)).

Definition WriteFile (p content : string) : M (option error) :=
  call (CallWriteFile p content);;
  sys (os_WriteFile p content).

(** ** The library functions the harness calls

    [filepath.Join] on two elements, and the slow path of
    [bytes.TrimSpace], [TrimFunc(s, unicode.IsSpace)], taken when a byte
    that is not ASCII is met. *)
Class Platform := {
  filepath_Join : string -> string -> string;
  TrimFunc_IsSpace : string -> string
}.

Definition asciiSpace (c : ascii) : bool :=
  let b := Bytes.byte_val c in
  (b =? 0x09) || (b =? 0x0A) || (b =? 0x0B) || (b =? 0x0C) || (b =? 0x0D)
  || (b =? 0x20).

(** One scan of [bytes.TrimSpace] over ASCII space: [inl rest] when it
    stops at a byte that is not a space (or at the end), [inr rest] when it
    meets a byte that is not ASCII. *)
Fixpoint skip_space (s : string) : string + string :=
  match s with
  | EmptyString => inl EmptyString
  | String c t =>
      if utf8.RuneSelf <=? Bytes.byte_val c then inr s
      else if asciiSpace c then skip_space t
      else inl s
  end.

Section Harness.

Context `{Platform}.

(** [bytes.TrimSpace]: from the start, then from the end. *)
Definition TrimSpace (s : string) : string :=
  match skip_space s with
  | inr rest => TrimFunc_IsSpace rest
  | inl rest =>
      match skip_space (Bytes.reverse rest) with
      | inr tser => TrimFunc_IsSpace (Bytes.reverse tser)
      | inl tser => Bytes.reverse tser
      end
  end.

(** ** SnapshotStore *)

Record SnapshotSuite := mkSuite { rootDir : string }.

Definition NewSnapshotSuite (rootDir : string) : SnapshotSuite :=
  mkSuite rootDir.

(** [VerifyFunc]: the assertion of the caller; the result says whether it
    registered a failure. *)
Definition VerifyFunc : Type := string -> string -> string -> bool.

Record Snapshot := mkSnapshot {
  Name : string;
  filep : string;
  verify : bool;
  equal : VerifyFunc
}.

Definition deriveSnapshotFilep (v : SnapshotSuite) (name : string) : string :=
  filepath_Join (rootDir v) name.

Definition NewSnapshot (v : SnapshotSuite) (name : string) (verify : bool)
    (equal : VerifyFunc) : Snapshot :=
  mkSnapshot name (deriveSnapshotFilep v name) verify equal.

Definition read (v : Snapshot) : M (string * option error) :=
  r ← ReadFile (filep v);
  match r with
  | inr err =>
      if IsNotExist err then mret (EmptyString, None)
      else mret (EmptyString, Some err)
  | inl b => mret (b, None)
  end.

Definition write (v : Snapshot) (content : string) : M (option error) :=
  WriteFile (filep v) content.

Definition Run (v : Snapshot) (view : string) : M (option error) :=
  '(content, err) ← read v;
  match err with
  | Some e => mret (Some e)
  | None =>
      if verify v && negb (String.eqb content EmptyString) then
        call (CallEqual content view (Name v) (equal v content view (Name v)));;
        mret None
      else if negb (String.eqb view content) then write v view
      else mret None
  end.

(** ** ScriptParser and EventDecoder *)

(** The loop of [readMessageGroups] over the lines of the file. *)
Definition parseGroups (b : string) : list (list string) :=
  fold_left
    (fun groups each =>
       let line := TrimSpace each in
       if String.eqb line EmptyString
          || Bytes.HasPrefix line "#"
          || Bytes.HasPrefix line "//"
       then groups
       else (groups ++ [Bytes.Split "," line])%list)
    (Bytes.Split "010" b) [].

Definition readMessageGroups (snapshotRootDir id : string)
    : M (list (list string)) :=
  let filep := filepath_Join snapshotRootDir (fmt.Sprintf_s_txt id) in
  r ← ReadFile filep;
  match r with
  | inr err => panic (PanicError err)
  | inl b => mret (parseGroups b)
  end.

Definition createKey (s : string) : KeyMsg :=
  if String.eqb s "enter" then mkKeyMsg KeyEnter [] false
  else if String.eqb s "tab" then mkKeyMsg KeyTab [] false
  else if String.eqb s "esc" then mkKeyMsg KeyEsc [] false
  else if String.eqb s "up" then mkKeyMsg KeyUp [] false
  else if String.eqb s "down" then mkKeyMsg KeyDown [] false
  else mkKeyMsg KeyRunes (utf8.to_runes s) false.

(** ** ReplayEngine *)

Section Replay.

Context {S : Type} `{Model S}.

Definition m_Init (m : S) : M Cmd := call CallInit;; mret (Init m).
Definition m_View (m : S) : M string := call CallView;; mret (View m).
Definition m_Update (m : S) (msg : Msg) : M (S * Cmd) :=
  call (CallUpdate msg);; mret (Update m msg).
Definition m_Cmd (cmd : unit -> Msg) : M Msg :=
  let msg := cmd tt in call (CallCmd msg);; mret msg.

(** The loop of [runUpdates].  [counter] is at least 1 whenever the body
    is entered from 100, so the decrement never leaves the naturals; from 0
    the decrement gives -1 and the guard fires as well. *)
Fixpoint runUpdates_loop (counter : nat) (m : S) (cmd : Cmd) : M S :=
  match cmd with
  | None => mret m
  | Some c =>
      msg ← m_Cmd c;
      '(m', cmd') ← m_Update m msg;
      match counter with
      | Datatypes.S (Datatypes.S _ as counter') =>
          runUpdates_loop counter' m' cmd'
      | _ => panic (PanicString "counter == 0, eternal loop")
      end
  end.

Definition runUpdates (m : S) (msg : Msg) : M S :=
  '(m', cmd) ← m_Update m msg;
  runUpdates_loop 100 m' cmd.

(** The closure [runSnapshot] of [RunBubbleTeaSnapshots]; the model it
    reads is the current value of the variable [m]. *)
Definition runSnapshot (snapshotSuite : SnapshotSuite) (verify : bool)
    (seriesID : string) (equal : VerifyFunc) (m : S) (i : Z) : M unit :=
  let name := fmt.Sprintf_s_03d seriesID i in
  call (CallNewSnapshot name verify);;
  let snapshot := NewSnapshot snapshotSuite name verify equal in
  view ← m_View m;
  err ← Run snapshot view;
  match err with
  | Some e => panic (PanicError e)
  | None => mret tt
  end.

(** The inner loop over the tokens of one group. *)
Fixpoint deliver (group : list string) (m : S) : M S :=
  match group with
  | [] => mret m
  | each :: rest =>
      m' ← runUpdates m (MsgKey (createKey each));
      deliver rest m'
  end.

(** The outer loop over the groups, from index [i] on. *)
Fixpoint replay_groups (snapshotSuite : SnapshotSuite) (verify : bool)
    (seriesID : string) (equal : VerifyFunc)
    (i : nat) (messageGroups : list (list string)) (m : S) : M unit :=
  match messageGroups with
  | [] => mret tt
  | group :: rest =>
      m' ← deliver group m;
      runSnapshot snapshotSuite verify seriesID equal m' (Z.of_nat i + 1);;
      replay_groups snapshotSuite verify seriesID equal (Datatypes.S i) rest m'
  end.

Definition RunBubbleTeaSnapshots (snapshotSuite : SnapshotSuite) (m : S)
    (verify : bool) (seriesID : string) (equal : VerifyFunc) : M unit :=
  messageGroups ← readMessageGroups (rootDir snapshotSuite) seriesID;
  cmd ← m_Init m;
  m_View m;;
  m' ← runUpdates m (Msg_of_Cmd cmd);
  runSnapshot snapshotSuite verify seriesID equal m' 0;;
  replay_groups snapshotSuite verify seriesID equal 0 messageGroups m'.

End Replay.

End Harness.

(** ** Definitions used to state the properties *)

(** What [ToSafeFilename] does to one rune, given with its bytes. *)
Definition sanitize_rune (piece : Z * string) : string :=
  let '(r, bytes) := piece in if nonSafeFilenamePattern r then "_" else bytes.

(** What [ToSafeFilename] does to one byte of an ASCII string. *)
Definition sanitize_byte (c : ascii) : string :=
  if safe_byte c then String c EmptyString else "_".


(** The content [read] finds, and the error it returns: a file that does
    not exist reads as the empty string. *)
Definition stored (v : Snapshot) (o : OS) : string * option error :=
  match os_ReadFile (filep v) o with
  | inr err => if IsNotExist err then (EmptyString, None) else (EmptyString, Some err)
  | inl b => (b, None)
  end.

Definition set_file (p content : string) (o : OS) : OS :=
  mkOS (<[p := content]> (files o)) (read_fault o) (write_fault o).

Definition log (w : World) (calls : list Call) : World :=
  mkWorld (os w) (trace w ++ calls).

(** A platform to evaluate on: elements that are clean and not empty are
    joined by a slash, and the inputs evaluated below are ASCII. *)
Definition unix : Platform :=
  {| filepath_Join := fun dir name => dir ++ "/" ++ name;
     TrimFunc_IsSpace := fun s => s |}.

Definition never_fails : VerifyFunc := fun _ _ _ => false.
Definition fails_on_mismatch : VerifyFunc :=
  fun expected actual _ => negb (String.eqb expected actual).

(** A file system with one file. *)
Definition script_os (path content : string) : OS :=
  mkOS (<[path := content]> ∅) ∅ ∅.

Definition empty_os : OS := mkOS ∅ ∅ ∅.
Definition world0 : World := mkWorld empty_os [].

(** A sequence of [Run] calls, each with its snapshot and rendered view;
    the world after the last one. *)
Fixpoint run_all (calls : list (Snapshot * string)) (w : World) : World :=
  match calls with
  | [] => w
  | (v, view) :: rest => run_all rest (snd (Run v view w))
  end.

(** The snapshot ["board"] of the suite ["testdata"]. *)
Definition board (verify : bool) : Snapshot :=
  @NewSnapshot unix (NewSnapshotSuite "testdata") "board" verify
               fails_on_mismatch.

Section ParserSpec.

Context `{Platform}.

(** A line the parser skips: empty once trimmed, or a comment. *)
Definition skipped (line : string) : bool :=
  String.eqb line EmptyString
  || Bytes.HasPrefix line "#"
  || Bytes.HasPrefix line "//".

(** The lines of a script that make a group: the file split on the
    newline, each line trimmed, the skipped ones left out. *)
Definition kept_lines (b : string) : list string :=
  List.filter (fun line => negb (skipped line))
              (List.map TrimSpace (Bytes.Split "010" b)).

(** The parsing rule in the words of the specification: one group per
    kept line, in the order of the lines, its tokens the pieces between
    the commas. *)
Definition parse_spec (b : string) : list (list string) :=
  List.map (Bytes.Split ",") (kept_lines b).

End ParserSpec.

Definition nl : string := String "010" EmptyString.

Definition example_script : string :=
  "a,b" ++ nl ++ "# comment" ++ nl ++ nl ++ "c".

Definition is_cmd (c : Call) : bool :=
  match c with CallCmd _ => true | _ => false end.

Definition count (p : Call -> bool) (calls : list Call) : nat :=
  List.length (List.filter p calls).

(** The names handed to [NewSnapshot], in the order of the calls. *)
Fixpoint snapshot_names (calls : list Call) : list string :=
  match calls with
  | [] => []
  | CallNewSnapshot name _ :: rest => name :: snapshot_names rest
  | _ :: rest => snapshot_names rest
  end.

Section SettleSpec.

Context {S : Type} `{Model S}.

(** The effect chain that starts at [cmd] in state [m] yields "no further
    event" within [n] steps: at most [n] effects are forced, each delivered
    by an update, before an update returns no effect. *)
Fixpoint settles_within (n : nat) (m : S) (cmd : Cmd) : bool :=
  match cmd with
  | None => true
  | Some c =>
      match n with
      | O => false
      | Datatypes.S n' =>
          let '(m', cmd') := Update m (c tt) in settles_within n' m' cmd'
      end
  end.

(** Settling in the words of the specification, cut after [n + 1] steps:
    force the effect, deliver the event by an update, go on with the effect
    this update returns. *)
Fixpoint settle_calls (n : nat) (m : S) (cmd : Cmd) : list Call :=
  match cmd with
  | None => []
  | Some c =>
      CallCmd (c tt) :: CallUpdate (c tt) ::
      match n with
      | O => []
      | Datatypes.S n' =>
          let '(m', cmd') := Update m (c tt) in settle_calls n' m' cmd'
      end
  end.

(** The model the chain ends in. *)
Fixpoint settled (n : nat) (m : S) (cmd : Cmd) : S :=
  match cmd with
  | None => m
  | Some c =>
      match n with
      | O => fst (Update m (c tt))
      | Datatypes.S n' =>
          let '(m', cmd') := Update m (c tt) in settled n' m' cmd'
      end
  end.

End SettleSpec.

Definition tick : unit -> Msg := fun _ => MsgUser "tick".

(** A model that counts its updates and asks for one more until it has
    seen [limit] of them. *)
Definition counting (limit : nat) : Model nat :=
  {| Init := fun _ => None;
     Update := fun m _ =>
       (Datatypes.S m, if (m <? limit)%nat then Some tick else None);
     View := fun m => fmt.decimal (N.of_nat m) |}.

(** A model that does nothing. *)
Definition still : Model unit :=
  {| Init := fun _ => None;
     Update := fun m _ => (m, None);
     View := fun _ => "view" |}.

(** A model whose [Init] returns a command. *)
Definition eager : Model nat :=
  {| Init := fun _ => Some tick;
     Update := fun m _ => (Datatypes.S m, None);
     View := fun m => fmt.decimal (N.of_nat m) |}.

(** The name of snapshot [i] of the run [seriesID]. *)
Definition snapshot_name (seriesID : string) (i : nat) : string :=
  fmt.Sprintf_s_03d seriesID (Z.of_nat i).

(** The value [runUpdates] panics with. *)
Definition eternal_loop : panic_value :=
  PanicString "counter == 0, eternal loop".

(** ** Further definitions: decoder, parser and store *)

(** The five tokens [createKey] gives a key of their own. *)
Definition reserved (s : string) : bool :=
  String.eqb s "enter" || String.eqb s "tab" || String.eqb s "esc"
  || String.eqb s "up" || String.eqb s "down".

Definition is_write (c : Call) : bool :=
  match c with CallWriteFile _ _ => true | _ => false end.

Definition is_equal (c : Call) : bool :=
  match c with CallEqual _ _ _ _ => true | _ => false end.

Definition no_comma (token : string) : bool :=
  Bytes.all (fun c => negb (Ascii.eqb c ",")) token.

(** The first token of a group, the empty string for no token. *)
Definition first_token (group : list string) : string :=
  match group with
  | [] => EmptyString
  | token :: _ => token
  end.

(** [k] zeros in front of a decimal number. *)
Fixpoint lead0 (k : nat) (u : Decimal.uint) : Decimal.uint :=
  match k with
  | O => u
  | Datatypes.S k' => Decimal.D0 (lead0 k' u)
  end.

Section ReplaySpec.

Context `{Platform}.

(** Snapshot [i] of the run [seriesID] has a recorded baseline: its file
    under the root [root] can be read and is not empty. *)
Definition baseline (o : OS) (root seriesID : string) (i : nat) : Prop :=
  exists content,
    os_ReadFile (filepath_Join root (snapshot_name seriesID i)) o = inl content
    /\ content <> EmptyString.

End ReplaySpec.

(** Nothing was written and the file system is the same. *)
Definition quiet (w w' : World) : Prop :=
  os w' = os w
  /\ List.filter is_write (trace w') = List.filter is_write (trace w).

(** A file system with the script of the run [run1] and the baseline of
    its first snapshot. *)
Definition recorded_os : OS :=
  mkOS (<["testdata/run1.txt" := "# no event"]>
          (<["testdata/run1_000" := "old view"]> ∅)) ∅ ∅.

(** * Package gent: the set backed by a map, and the slice helpers *)

Module gent.

Section Set_.

Context {T : Type} `{Countable T}.

(** [Set[T]]: the map [m] from the items to [bool].  The methods have a
    pointer receiver and change the map in place; here they return the set
    after the call beside their result. *)
Record Set_ := mkSet { m : gmap T bool }.

(** [Has] *)
Definition Has (item : T) (v : Set_) : bool :=
  match m v !! item with
  | Some _ => true
  | None => false
  end.

(** [Contains], an alias of [Has] *)
Definition Contains (item : T) (v : Set_) : bool := Has item v.

(** [Add]: [added] and the set after the call *)
Definition Add (item : T) (v : Set_) : bool * Set_ :=
  match m v !! item with
  | Some _ => (false, v)
  | None => (true, mkSet (<[item := false]> (m v)))
  end.

(** [NewSet(items...)] *)
Definition NewSet (items : list T) : Set_ :=
  fold_left (fun set each => snd (Add each set)) items (mkSet ∅).

(** [Clear] *)
Definition Clear (v : Set_) : Set_ := mkSet ∅.

(** [Len], the [len] of the map *)
Definition Len (v : Set_) : Z := Z.of_nat (size (m v)).

(** [Count] *)
Definition Count (v : Set_) : Z := Z.of_nat (size (m v)).

(** [Remove]: [existed] and the set after the call *)
Definition Remove (item : T) (v : Set_) : bool * Set_ :=
  (match m v !! item with Some _ => true | None => false end,
   mkSet (delete item (m v))).

(** The order in which [range v.m] yields the keys is not specified in Go
    and changes from one loop to the next.  The methods that range over
    the map take the order as an argument; an order is any list of the
    keys of the map, each once. *)
Definition range_of (v : Set_) (order : list T) : Prop :=
  order ≡ₚ (map_to_list (m v)).*1.

(** The order the functions are evaluated with in the examples. *)
Definition some_order (v : Set_) : list T := (map_to_list (m v)).*1.

(** The loop of [Equal] *)
Fixpoint Equal_loop (order : list T) (s : Set_) : bool :=
  match order with
  | [] => true
  | each :: rest => if negb (Has each s) then false else Equal_loop rest s
  end.

(** [Equal] *)
Definition Equal (order : list T) (v s : Set_) : bool :=
  if negb (Z.of_nat (size (m v)) =? Len s) then false
  else Equal_loop order s.

(** [ToSlice]: the slice is [[]T{}] and then appended to *)
Definition ToSlice (order : list T) (v : Set_) : list T :=
  fold_left (fun keys each => (keys ++ [each])%list) order [].



End Set_.

Arguments Set_ T {_ _}.

(** A Go slice: [None] is the nil slice. *)
Definition slice (T : Type) : Type := option (list T).

Definition elems {T : Type} (s : slice T) : list T :=
  match s with
  | Some l => l
  | None => []
  end.

(** [append(s, v)] *)
Definition append {T : Type} (s : slice T) (v : T) : slice T :=
  Some (elems s ++ [v])%list.

(** [make([]U, n)]: [n] zero values *)
Definition make {U : Type} (zero : U) (n : nat) : slice U :=
  Some (replicate n zero).

(** [s[i] = x]; out of range Go panics, which the loop of [Map] never
    does. *)
Definition set_index {U : Type} (s : slice U) (i : nat) (x : U) : slice U :=
  option_map (fun l => <[i := x]> l) s.

(** [Map]: the loop [for i, v := range s] with its index *)
Definition Map {T U : Type} (zero : U) (s : slice T) (f : T -> U) : slice U :=
  snd (fold_left
         (fun '(i, mapped) v => (Datatypes.S i, set_index mapped i (f v)))
         (elems s)
         (O, make zero (List.length (elems s)))).

(** [Filter] *)
Definition Filter {T : Type} (s : slice T) (f : T -> bool) : slice T :=
  fold_left
    (fun filtered v => if f v then append filtered v else filtered)
    (elems s) None.

(** [Tri] *)
Definition Tri {T : Type} (condition : bool) (a b : T) : T :=
  if condition then a else b.

(** [NewOption]: each option changes the value through the pointer it is
    given. *)
Definition NewOption {T : Type} (t : T) (options : list (T -> T)) : T :=
  fold_left (fun t each => each t) options t.

End gent.

(** * Package assfs: file system operations with assertions *)

Module assfs.

(** [afero.Afero], the file system the assertions work on: a state [F]
    with the operations used here, and errors [E] with their text. *)
Class Afero (F E : Type) := {
  ReadFile : string -> F -> string + E;
  WriteFile : string -> string -> Z -> F -> option E * F;
  MkdirAll : string -> Z -> F -> option E * F;
  Error : E -> string
}.

(** An assertion of [require] that fails ends the test at once, with the
    message it was given. *)
Inductive Verdict (A : Type) :=
| Pass (a : A)
| FailNow (message : string).
Arguments Pass {A} a.
Arguments FailNow {A} message.

(** [strings.Repeat(s, count)], for a count that is not negative (Go
    panics on a negative one; the counts here are 0 and [1024^2]). *)
Fixpoint Repeat (s : string) (count : nat) : string :=
  match count with
  | O => EmptyString
  | Datatypes.S k => s ++ Repeat s k
  end.

Section AssertFs.

Context {F E : Type} `{Afero F E}.

(** [filepath.Dir] *)
Variable Dir : string -> string.

(** [req.Nilf(err, msg)] *)
Definition Nilf (err : option E) (msg : string) : Verdict unit :=
  match err with
  | None => Pass tt
  | Some _ => FailNow msg
  end.

(** [req.Equalf(expected, actual, msg)] on strings *)
Definition Equalf (expected actual msg : string) : Verdict unit :=
  if String.eqb expected actual then Pass tt else FailNow msg.

(** The method [MkdirAll] of [AssertFs], with mode 0700; the message of
    its assertion, formatted only when it fails, ends with the text of
    the error. *)
Definition AssertFs_MkdirAll (dirp message : string) (fs : F)
    : Verdict unit * F :=
  let '(err, fs') := MkdirAll dirp 448 fs in
  (match err with
   | None => Pass tt
   | Some e =>
       FailNow ("mkdir, path: " ++ dirp ++ ", message: " ++ message
                ++ ", error: " ++ Error e)
   end,
   fs').

(** [doWriteTextFile]; the file is written with mode 0666. *)
Definition doWriteTextFile (filep content : string) (n : Z) (message : string)
    (fs : F) : Verdict unit * F :=
  let dirp := Dir filep in
  match AssertFs_MkdirAll dirp message fs with
  | (FailNow msg, fs') => (FailNow msg, fs')
  | (Pass _, fs') =>
      let '(err, fs'') :=
        WriteFile filep (content ++ Repeat "0" (Z.to_nat n)) 438 fs' in
      (Nilf err ("write, filep: " ++ filep ++ ", message: " ++ message), fs'')
  end.

(** [WriteTextFile] *)
Definition WriteTextFile (filep content message : string) (fs : F)
    : Verdict unit * F :=
  doWriteTextFile filep content 0 message fs.

(** [WriteLargeTextFile]; in Go [^] is the exclusive or. *)
Definition WriteLargeTextFile (filep content message : string) (fs : F)
    : Verdict unit * F :=
  doWriteTextFile filep content (Z.lxor 1024 2) message fs.

(** [ReadLines] *)
Definition ReadLines (filep message : string) (fs : F) : Verdict (list string) :=
  match ReadFile filep fs with
  | inr _ =>
      FailNow ("read lines, path: " ++ filep ++ ", message: " ++ message)
  | inl b =>
      if (String.length b =? 0)%nat then Pass []
      else Pass (Bytes.Split "010" b)
  end.

(** [Contains] *)
Definition Contains (filep content message : string) (fs : F) : Verdict unit :=
  match ReadLines filep message fs with
  | FailNow msg => FailNow msg
  | Pass lines =>
      let actual := Bytes.Join "010" lines in
      Equalf content actual
             ("contains, path: " ++ filep ++ ", message: " ++ message)
  end.

(** [WriteBytes], with mode 0600 *)
Definition WriteBytes (filep b : string) (fs : F) : option E * F :=
  WriteFile filep b 384 fs.

End AssertFs.

(** A file system to evaluate on: files in a map, every operation
    succeeds. *)
Definition map_fs : Afero (gmap string string) unit := {|
  ReadFile := fun p fs => match fs !! p with
                          | Some b => inl b
                          | None => inr tt
                          end;
  WriteFile := fun p b _ fs => (None, <[p := b]> fs);
  MkdirAll := fun _ _ fs => (None, fs);
  Error := fun _ => "file does not exist"
|}.

End assfs.

(** ** Definitions used to state what trimming does *)

(** The string begins with a byte for which [p] holds. *)
Definition begins_with (p : ascii -> bool) (s : string) : bool :=
  match s with
  | EmptyString => false
  | String c _ => p c
  end.

(** The string ends with a byte for which [p] holds. *)
Definition ends_with (p : ascii -> bool) (s : string) : bool :=
  begins_with p (Bytes.reverse s).

Definition not_ascii (c : ascii) : bool := utf8.RuneSelf <=? Bytes.byte_val c.

(** The example script with white space around its lines: spaces and a
    tab in front, spaces and a carriage return behind. *)
Definition example_script_padded : string :=
  "  a,b " ++ String "013" nl ++ String "009" "# comment  " ++ nl
  ++ "   " ++ nl ++ " c" ++ String "009" EmptyString.

(** * Properties *)

(** ** Bytes, runes and the sanitizer *)

Example ToSafeFilename_x_wins : ToSafeFilename "x wins" = "x_wins".
Proof. reflexivity. Qed.

Example Sprintf_run1_2 : fmt.Sprintf_s_03d "run1" 2 = "run1_002".
Proof. reflexivity. Qed.

Lemma byte_val_range (c : ascii) : 0 <= Bytes.byte_val c < 256.
Proof.
  unfold Bytes.byte_val. pose proof (N_ascii_bounded c). lia.
Qed.

Lemma app_cons (c : ascii) (a b : string) :
  String c a ++ b = String c (a ++ b).
Proof. reflexivity. Qed.

Lemma take_drop (w : nat) (s : string) : Bytes.take w s ++ Bytes.drop w s = s.
Proof.
  revert s; induction w as [|w IH]; intros [|c t]; cbn; try reflexivity.
  rewrite app_cons. f_equal. apply IH.
Qed.

Lemma drop_length (w : nat) (s : string) :
  String.length (Bytes.drop w s) = (String.length s - w)%nat.
Proof.
  revert s; induction w as [|w IH]; intros [|c t]; simpl; auto with arith.
Qed.

Lemma all_app (p : ascii -> bool) (a b : string) :
  Bytes.all p (a ++ b) = Bytes.all p a && Bytes.all p b.
Proof.
  induction a as [|c a IH]; [reflexivity|].
  rewrite app_cons. cbn. now rewrite IH, andb_assoc.
Qed.

Lemma lor_lower_l (a b : Z) : 0 <= b -> a <= Z.lor a b.
Proof.
  intros Hb. pose proof (Z.sub_lor_l_same_l b a) as E.
  assert (0 <= Z.land b (Z.lnot a)) by (apply Z.land_nonneg; auto). lia.
Qed.

Lemma lor_lower_r (a b : Z) : 0 <= a -> b <= Z.lor a b.
Proof. rewrite Z.lor_comm. apply lor_lower_l. Qed.

Lemma safe_rune_ascii (r : Z) : safe_rune r = true -> 0 <= r < 0x80.
Proof.
  unfold safe_rune. intros E.
  repeat (apply orb_prop in E; destruct E as [E|E]);
    repeat (apply andb_prop in E; destruct E as [E ?]); lia.
Qed.

Lemma first_SZ (s0 : Z) (sz : nat) (lo hi : Z) :
  utf8.first s0 = utf8.SZ sz lo hi ->
  0x80 <= lo /\ hi <= 0xBF /\
  ((sz = 2%nat /\ 0xC2 <= s0 < 0xE0) \/
   (sz = 3%nat /\ 0xE0 <= s0 < 0xF0 /\ (s0 = 0xE0 -> lo = 0xA0)) \/
   (sz = 4%nat /\ 0xF0 <= s0 <= 0xF4 /\ (s0 = 0xF0 -> lo = 0x90))).
Proof.
  unfold utf8.first, utf8.locb, utf8.hicb.
  repeat match goal with
         | |- context [?a <? ?b] => destruct (Z.ltb_spec a b)
         | |- context [?a =? ?b] => destruct (Z.eqb_spec a b)
         end; intros E; inversion E; subst; lia.
Qed.

Lemma mask_mod (a : Z) :
  Z.land a 0x1F = a mod 32 /\ Z.land a 0x0F = a mod 16 /\
  Z.land a 0x07 = a mod 8 /\ Z.land a 0x3F = a mod 64.
Proof.
  repeat split.
  - apply (Z.land_ones a 5); lia.
  - apply (Z.land_ones a 4); lia.
  - apply (Z.land_ones a 3); lia.
  - apply (Z.land_ones a 6); lia.
Qed.

(** The branches of the decoder that give [RuneError]. *)
Ltac rune_error :=
  let E := fresh "E" in
  intros E _; inversion E; unfold utf8.RuneError; lia.

Lemma decode_nonascii (c : ascii) (t : string) (r : Z) (w : nat) :
  utf8.DecodeRuneInString (String c t) = (r, w) ->
  0x80 <= Bytes.byte_val c -> 0x80 <= r.
Proof.
  unfold utf8.DecodeRuneInString.
  pose proof (byte_val_range c) as Hc.
  set (s0 := Bytes.byte_val c) in *.
  destruct (utf8.first s0) eqn:F.
  - unfold utf8.first in F.
    destruct (Z.ltb_spec s0 0x80); [lia|].
    intros E; inversion E; subst; auto.
  - rune_error.
  - apply first_SZ in F. destruct F as (Hlo & Hhi & F).
    destruct (_ <? _)%nat; [rune_error|].
    destruct t as [|c1 t1]; [rune_error|].
    pose proof (byte_val_range c1) as Hc1.
    set (s1 := Bytes.byte_val c1) in *.
    destruct (Z.ltb_spec s1 lo), (Z.ltb_spec hi s1); cbn [orb];
      try rune_error.
    destruct (mask_mod s0) as (M5 & M4 & M3 & _).
    destruct (mask_mod s1) as (_ & _ & _ & N6).
    destruct (size <=? 2)%nat eqn:S2.
    { intros E _; inversion E; subst r w.
      etransitivity; [|apply lor_lower_l; apply Z.land_nonneg; lia].
      rewrite Z.shiftl_mul_pow2, M5 by lia.
      apply Nat.leb_le in S2. 
      assert (0xC2 <= s0 < 0xE0) by lia.
      Z.div_mod_to_equations; lia. }
    apply Nat.leb_gt in S2.
    destruct t1 as [|c2 t2]; [rune_error|].
    pose proof (byte_val_range c2) as Hc2.
    set (s2 := Bytes.byte_val c2) in *.
    destruct (negb (utf8.cont s2));
      [rune_error|].
    assert (B1 : 0 <= Z.land s1 63) by (apply Z.land_nonneg; lia).
    assert (B2 : 0 <= Z.land s2 63) by (apply Z.land_nonneg; lia).
    destruct (size <=? 3)%nat eqn:S3.
    { intros E _; inversion E; subst r w.
      etransitivity; [|apply lor_lower_l; lia].
      apply Nat.leb_le in S3.
      assert (0xE0 <= s0 < 0xF0 /\ (s0 = 0xE0 -> lo = 0xA0)) as [R0 R1] by lia.
      destruct (Z.eq_dec s0 0xE0) as [E0|E0].
      - etransitivity; [|apply lor_lower_r; apply Z.shiftl_nonneg, Z.land_nonneg; lia].
        rewrite Z.shiftl_mul_pow2, N6 by lia. specialize (R1 E0).
        Z.div_mod_to_equations; lia.
      - etransitivity; [|apply lor_lower_l; apply Z.shiftl_nonneg; lia].
        rewrite Z.shiftl_mul_pow2, M4 by lia.
        Z.div_mod_to_equations; lia. }
    apply Nat.leb_gt in S3.
    destruct t2 as [|c3 t3]; [rune_error|].
    pose proof (byte_val_range c3) as Hc3.
    set (s3 := Bytes.byte_val c3) in *.
    destruct (negb (utf8.cont s3));
      [rune_error|].
    intros E _; inversion E; subst r w.
    etransitivity; [|apply lor_lower_l; apply Z.land_nonneg; lia].
    etransitivity; [|apply lor_lower_l; apply Z.shiftl_nonneg; lia].
    assert (0xF0 <= s0 <= 0xF4 /\ (s0 = 0xF0 -> lo = 0x90)) as [R0 R1] by lia.
    destruct (Z.eq_dec s0 0xF0) as [E0|E0].
    + etransitivity; [|apply lor_lower_r; apply Z.shiftl_nonneg, Z.land_nonneg; lia].
      rewrite Z.shiftl_mul_pow2, N6 by lia. specialize (R1 E0).
      Z.div_mod_to_equations; lia.
    + etransitivity; [|apply lor_lower_l; apply Z.shiftl_nonneg; lia].
      rewrite Z.shiftl_mul_pow2, M3 by lia.
      Z.div_mod_to_equations; lia.
Qed.

Lemma decode_ascii (c : ascii) (t : string) :
  Bytes.is_ascii c = true ->
  utf8.DecodeRuneInString (String c t) = (Bytes.byte_val c, 1%nat).
Proof.
  unfold Bytes.is_ascii, utf8.DecodeRuneInString, utf8.first. intros E.
  now rewrite E.
Qed.

Lemma decode_safe (c : ascii) (t : string) (r : Z) (w : nat) :
  utf8.DecodeRuneInString (String c t) = (r, w) ->
  safe_rune r = true -> w = 1%nat /\ r = Bytes.byte_val c.
Proof.
  intros D Hs. apply safe_rune_ascii in Hs.
  destruct (Bytes.is_ascii c) eqn:A.
  - rewrite decode_ascii in D by assumption. inversion D; auto.
  - unfold Bytes.is_ascii in A. apply Z.ltb_ge in A.
    pose proof (decode_nonascii c t r w D A). lia.
Qed.

Lemma decode_width (c : ascii) (t : string) :
  (1 <= snd (utf8.DecodeRuneInString (String c t)))%nat.
Proof.
  unfold utf8.DecodeRuneInString.
  repeat case_match; cbn [snd]; lia.
Qed.

Lemma length_app (a b : string) :
  String.length (a ++ b) = (String.length a + String.length b)%nat.
Proof.
  induction a as [|c a IH]; [reflexivity|].
  rewrite app_cons. cbn. now rewrite IH.
Qed.

Lemma concat_cons (x : string) (l : list string) :
  Bytes.concat (x :: l) = x ++ Bytes.concat l.
Proof. reflexivity. Qed.

Lemma scan_cover (fuel : nat) (s : string) :
  (String.length s <= fuel)%nat ->
  Bytes.concat (List.map snd (utf8.scan fuel s)) = s.
Proof.
  revert s; induction fuel as [|f IH]; intros [|c t] L; cbn in L;
    try reflexivity; try lia.
  cbn [utf8.scan].
  pose proof (decode_width c t) as W.
  destruct (utf8.DecodeRuneInString (String c t)) as [r w]; cbn [snd] in W.
  cbn [List.map snd]. rewrite concat_cons, IH, take_drop; [reflexivity|].
  rewrite drop_length. cbn. lia.
Qed.


Lemma sanitize_rune_piece (c : ascii) (t : string) (r : Z) (w : nat) :
  utf8.DecodeRuneInString (String c t) = (r, w) ->
  Bytes.all safe_byte (sanitize_rune (r, Bytes.take w (String c t))) = true
  /\ String.length (sanitize_rune (r, Bytes.take w (String c t))) = 1%nat.
Proof.
  intros D. unfold sanitize_rune, nonSafeFilenamePattern.
  destruct (safe_rune r) eqn:Hs; cbn [negb]; [|split; reflexivity].
  destruct (decode_safe c t r w D Hs) as [-> ->]. cbn.
  unfold safe_byte. rewrite Hs. auto.
Qed.

Lemma sanitize_scan (fuel : nat) (s : string) :
  Bytes.all safe_byte (Bytes.concat (List.map sanitize_rune (utf8.scan fuel s))) = true
  /\ String.length (Bytes.concat (List.map sanitize_rune (utf8.scan fuel s)))
     = List.length (utf8.scan fuel s).
Proof.
  revert s; induction fuel as [|f IH]; intros [|c t]; cbn [utf8.scan];
    try (split; reflexivity).
  destruct (utf8.DecodeRuneInString (String c t)) as [r w] eqn:D.
  cbn [List.map List.length]. rewrite concat_cons.
  destruct (sanitize_rune_piece c t r w D) as [P1 P2].
  destruct (IH (Bytes.drop w (String c t))) as [I1 I2].
  rewrite all_app, P1, I1, length_app, P2, I2. auto.
Qed.

Lemma sanitize_scan_ascii (fuel : nat) (s : string) :
  (String.length s <= fuel)%nat ->
  Bytes.all Bytes.is_ascii s = true ->
  Bytes.concat (List.map sanitize_rune (utf8.scan fuel s))
  = Bytes.map sanitize_byte s
  /\ List.length (utf8.scan fuel s) = String.length s.
Proof.
  revert s; induction fuel as [|f IH]; intros [|c t] L A; cbn in L;
    try (split; reflexivity); try lia.
  cbn in A. apply andb_prop in A. destruct A as [Ac At].
  cbn [utf8.scan]. rewrite decode_ascii by assumption.
  cbn [List.map Bytes.take Bytes.drop List.length Bytes.map String.length].
  rewrite concat_cons.
  destruct (IH t) as [I1 I2]; [lia|assumption|].
  rewrite I1, I2. split; [|reflexivity]. f_equal.
  unfold sanitize_rune, sanitize_byte, nonSafeFilenamePattern, safe_byte.
  now destruct (safe_rune (Bytes.byte_val c)).
Qed.

Lemma ToSafeFilename_unfold (s : string) :
  ToSafeFilename s
  = Bytes.concat (List.map sanitize_rune (utf8.scan (String.length s) s)).
Proof. reflexivity. Qed.




(** ** The monad *)

Lemma bind_run {A B : Type} (m : M A) (f : A -> M B) (w : World) :
  (m ≫= f) w = match m w with
               | (Done a, w') => f a w'
               | (Panicked v, w') => (Panicked v, w')
               end.
Proof. reflexivity. Qed.

Lemma ret_run {A : Type} (a : A) (w : World) : (mret a : M A) w = (Done a, w).
Proof. reflexivity. Qed.

Lemma call_run (c : Call) (w : World) : call c w = (Done tt, log w [c]).
Proof. reflexivity. Qed.

Lemma log_log (w : World) (a b : list Call) : log (log w a) b = log w (a ++ b).
Proof. unfold log; cbn. now rewrite <- app_assoc. Qed.

Lemma log_nil (w : World) : log w [] = w.
Proof. destruct w; unfold log; cbn. now rewrite app_nil_r. Qed.

Lemma ReadFile_run (p : string) (w : World) :
  ReadFile p w = (Done (os_ReadFile p (os w)), log w [CallReadFile p]).
Proof. reflexivity. Qed.

Lemma WriteFile_run (p content : string) (w : World) :
  WriteFile p content w
  = (Done (fst (os_WriteFile p content (os w))),
     mkWorld (snd (os_WriteFile p content (os w)))
             (trace w ++ [CallWriteFile p content])).
Proof.
  unfold WriteFile. rewrite bind_run, call_run. unfold sys. cbn.
  now destruct (os_WriteFile p content (os w)).
Qed.

(** ** SnapshotStore *)

Section Store.

Lemma read_run (v : Snapshot) (w : World) :
  read v w = (Done (stored v (os w)), log w [CallReadFile (filep v)]).
Proof.
  unfold read, stored. rewrite bind_run, ReadFile_run. cbn [os log].
  destruct (os_ReadFile (filep v) (os w)) as [b|err]; [reflexivity|].
  now destruct (IsNotExist err).
Qed.

(** What one call of [Run] does, case by case. *)
Lemma Run_run (v : Snapshot) (view : string) (w : World) :
  Run v view w =
  match stored v (os w) with
  | (_, Some e) => (Done (Some e), log w [CallReadFile (filep v)])
  | (content, None) =>
      if verify v && negb (String.eqb content EmptyString) then
        (Done None,
         log w [CallReadFile (filep v);
                CallEqual content view (Name v) (equal v content view (Name v))])
      else if negb (String.eqb view content) then
        (Done (fst (os_WriteFile (filep v) view (os w))),
         mkWorld (snd (os_WriteFile (filep v) view (os w)))
                 (trace w ++ [CallReadFile (filep v); CallWriteFile (filep v) view]))
      else (Done None, log w [CallReadFile (filep v)])
  end.
Proof.
  unfold Run. rewrite bind_run, read_run.
  destruct (stored v (os w)) as [content [e|]]; [reflexivity|].
  destruct (verify v && negb (String.eqb content EmptyString)).
  - rewrite bind_run, call_run, ret_run, log_log. reflexivity.
  - destruct (negb (String.eqb view content)); [|reflexivity].
    unfold write. rewrite WriteFile_run. cbn [os trace log].
    now rewrite <- app_assoc.
Qed.

Lemma stored_set_file (v : Snapshot) (view : string) (o : OS) (content : string) :
  stored v o = (content, None) ->
  stored v (set_file (filep v) view o) = (view, None).
Proof.
  unfold stored, os_ReadFile, set_file. cbn [read_fault files].
  destruct (decide (filep v ∈ read_fault o)); [cbn; discriminate|].
  now rewrite lookup_insert_eq.
Qed.

Lemma Run_verify_steady (v : Snapshot) (rendered content : string) (w : World) :
  verify v = true ->
  os_ReadFile (filep v) (os w) = inl content ->
  content <> EmptyString ->
  Run v rendered w
  = (Done None,
     mkWorld (os w)
       (trace w ++ [CallReadFile (filep v);
                    CallEqual content rendered (Name v)
                              (equal v content rendered (Name v))])).
Proof.
  intros Hv Hr Hne. rewrite Run_run. unfold stored. rewrite Hr, Hv.
  apply String.eqb_neq in Hne. rewrite Hne. reflexivity.
Qed.

(** C5: in verify mode over a stored content that is not empty, [Run]
    calls [equal(stored, rendered, name)] exactly once, returns nil whatever
    the assertion found, and leaves the file system as it was, also when
    the rendered view differs from the stored one. *)
Theorem C5_verify_compares_once_and_keeps_file
    (v : Snapshot) (rendered content : string) (w : World) :
  verify v = true ->
  os_ReadFile (filep v) (os w) = inl content ->
  content <> EmptyString ->
  Run v rendered w
  = (Done None,
     mkWorld (os w)
       (trace w ++ [CallReadFile (filep v);
                    CallEqual content rendered (Name v)
                              (equal v content rendered (Name v))])).
Proof. exact (Run_verify_steady v rendered content w). Qed.

(** A file that does not exist is read as the empty string, not as an
    error. *)
Lemma stored_absent (v : Snapshot) (o : OS) :
  files o !! filep v = None -> filep v ∉ read_fault o ->
  stored v o = (EmptyString, None).
Proof.
  intros Hf Hr. unfold stored, os_ReadFile.
  destruct (decide (filep v ∈ read_fault o)); [contradiction|].
  now rewrite Hf.
Qed.

(** C6: in non-verify mode, after [Run] has returned nil the stored content
    is the rendered view; when the content was the rendered view already,
    nothing is written: the file system is unchanged and the only call is
    the read.  A file that does not exist is read as the empty string,
    without error. *)
Theorem C6_bootstrap_stores_rendered
    (v : Snapshot) (rendered : string) (w w' : World) :
  verify v = false ->
  Run v rendered w = (Done None, w') ->
  fst (read v w') = Done (rendered, None)
  /\ (fst (read v w) = Done (rendered, None) ->
      w' = log w [CallReadFile (filep v)])
  /\ (files (os w) !! filep v = None -> filep v ∉ read_fault (os w) ->
      fst (read v w) = Done (EmptyString, None)).
Proof.
  intros Hv. rewrite Run_run, Hv, !read_run. cbn [andb fst].
  destruct (stored v (os w)) as [content [e|]] eqn:St; [discriminate|].
  destruct (String.eqb_spec rendered content) as [->|Hne]; cbn [negb].
  - intros E; inversion E; subst w'. cbn [os log]. rewrite St.
    repeat split; auto.
    intros Hf Hr. rewrite <- St. f_equal. now apply stored_absent.
  - unfold os_WriteFile.
    destruct (decide (filep v ∈ write_fault (os w))); cbn [fst snd];
      [discriminate|].
    intros E; inversion E; subst w'. cbn [os]. split; [|split].
    + f_equal. exact (stored_set_file v rendered (os w) content St).
    + intros E'; inversion E'; congruence.
    + intros Hf Hr. rewrite <- St. f_equal. now apply stored_absent.
Qed.

Lemma Run_overwrites (v : Snapshot) (view : string) (w : World) :
  os (snd (Run v view w)) = os w
  \/ (exists content,
        fst (read v w) = Done (content, None)
        /\ view <> content
        /\ (verify v = false \/ content = EmptyString)
        /\ os (snd (Run v view w)) = set_file (filep v) view (os w)).
Proof.
  rewrite Run_run, read_run. cbn [fst].
  destruct (stored v (os w)) as [content [e|]]; [left; reflexivity|].
  destruct (verify v && negb (String.eqb content EmptyString)) eqn:G;
    [left; reflexivity|].
  destruct (String.eqb_spec view content) as [->|Hne]; cbn [negb];
    [left; reflexivity|].
  unfold os_WriteFile.
  destruct (decide (filep v ∈ write_fault (os w))); cbn [snd os];
    [left; reflexivity|right].
  exists content. repeat split; auto.
  apply andb_false_iff in G. destruct G as [G|G]; [left; exact G|right].
  apply negb_false_iff in G. now apply String.eqb_eq.
Qed.

Lemma run_all_verifying (p content : string)
    (calls : list (Snapshot * string)) (w : World) :
  Forall (fun call => filep (fst call) = p /\ verify (fst call) = true) calls ->
  os_ReadFile p (os w) = inl content ->
  content <> EmptyString ->
  os (run_all calls w) = os w.
Proof.
  intros F; revert w; induction F as [|[v view] calls [Hp Hv] F IH];
    intros w Hr Hne; [reflexivity|].
  cbn [run_all fst] in *. subst p.
  rewrite (Run_verify_steady v view content w Hv Hr Hne). cbn [snd].
  now rewrite IH.
Qed.

(** C4 (amended): in any sequence of [Run] calls, a call changes the file
    system only by writing the rendered view to the file of its snapshot,
    and only when that view differs from the stored content and either
    the run is not a verifying one or the stored content is empty; so a
    file with a content that is not empty is left as it is by every
    sequence of verifying runs on its path. *)
Theorem C4_overwrite_only_when_unverified_or_empty :
  (forall (v : Snapshot) (view : string) (w : World),
      os (snd (Run v view w)) = os w
      \/ (exists content,
            fst (read v w) = Done (content, None)
            /\ view <> content
            /\ (verify v = false \/ content = EmptyString)
            /\ os (snd (Run v view w)) = set_file (filep v) view (os w)))
  /\ (forall (p content : string) (calls : list (Snapshot * string)) (w : World),
        Forall (fun call => filep (fst call) = p /\ verify (fst call) = true)
               calls ->
        os_ReadFile p (os w) = inl content ->
        content <> EmptyString ->
        os (run_all calls w) = os w).
Proof. split; [exact Run_overwrites|exact run_all_verifying]. Qed.

End Store.

Lemma C4_witness :
  os (run_all [(board true, "xx"); (board true, "oo")]
              (mkWorld (script_os "testdata/board" "xo") []))
  = script_os "testdata/board" "xo".
Proof.
  apply (proj2 C4_overwrite_only_when_unverified_or_empty
           "testdata/board" "xo").
  - repeat constructor.
  - reflexivity.
  - discriminate.
Defined.

(** C4 (as stated, refuted): the file is written twice by runs that do not
    verify, the second time with the empty view; a verifying run then
    overwrites it with its own view. *)
Lemma C4_counterexample :
  let w1 := snd (Run (board false) "a" world0) in
  let w2 := snd (Run (board false) "" w1) in
  let w3 := snd (Run (board true) "b" w2) in
  files (os w1) !! "testdata/board" = Some "a"
  /\ files (os w2) !! "testdata/board" = Some ""
  /\ verify (board true) = true
  /\ files (os w3) !! "testdata/board" = Some "b"
  /\ trace w3
     = [CallReadFile "testdata/board"; CallWriteFile "testdata/board" "a";
        CallReadFile "testdata/board"; CallWriteFile "testdata/board" "";
        CallReadFile "testdata/board"; CallWriteFile "testdata/board" "b"].
Proof. vm_compute. repeat split; reflexivity. Qed.

Lemma C5_witness :
  Run (board true) "xx" (mkWorld (script_os "testdata/board" "xo") [])
  = (Done None,
     mkWorld (script_os "testdata/board" "xo")
       [CallReadFile "testdata/board";
        CallEqual "xo" "xx" "board" true]).
Proof.
  apply (C5_verify_compares_once_and_keeps_file (board true) "xx" "xo"
           (mkWorld (script_os "testdata/board" "xo") [])).
  - reflexivity.
  - reflexivity.
  - discriminate.
Defined.

Lemma C6_witness :
  fst (read (board false) (snd (Run (board false) "xo" world0)))
  = Done ("xo", None)
  /\ (fst (read (board false) world0) = Done ("xo", None) ->
      snd (Run (board false) "xo" world0)
      = log world0 [CallReadFile (filep (board false))])
  /\ (files (os world0) !! filep (board false) = None ->
      filep (board false) ∉ read_fault (os world0) ->
      fst (read (board false) world0) = Done (EmptyString, None)).
Proof.
  apply (C6_bootstrap_stores_rendered (board false) "xo" world0
           (snd (Run (board false) "xo" world0))).
  - reflexivity.
  - reflexivity.
Defined.

(** ** Trimming *)

Lemma sapp_assoc (a b c : string) : (a ++ b) ++ c = a ++ b ++ c.
Proof.
  induction a as [|x a IH]; [reflexivity|]. rewrite !app_cons. now rewrite IH.
Qed.

Lemma sapp_nil_r (a : string) : a ++ EmptyString = a.
Proof.
  induction a as [|x a IH]; [reflexivity|]. rewrite app_cons. now rewrite IH.
Qed.

Lemma rev_onto_app (s acc : string) :
  Bytes.rev_onto s acc = Bytes.reverse s ++ acc.
Proof.
  unfold Bytes.reverse. revert acc.
  induction s as [|c s IH]; intros acc; cbn [Bytes.rev_onto]; [reflexivity|].
  rewrite (IH (String c acc)), (IH (String c EmptyString)).
  now rewrite sapp_assoc.
Qed.

Lemma reverse_cons (c : ascii) (s : string) :
  Bytes.reverse (String c s) = Bytes.reverse s ++ String c EmptyString.
Proof. unfold Bytes.reverse at 1. cbn [Bytes.rev_onto]. apply rev_onto_app. Qed.

Lemma reverse_app (a b : string) :
  Bytes.reverse (a ++ b) = Bytes.reverse b ++ Bytes.reverse a.
Proof.
  induction a as [|x a IH].
  - change (EmptyString ++ b) with b. now rewrite sapp_nil_r.
  - rewrite app_cons, !reverse_cons, IH. apply sapp_assoc.
Qed.

Lemma reverse_involutive (s : string) : Bytes.reverse (Bytes.reverse s) = s.
Proof.
  induction s as [|c s IH]; [reflexivity|].
  rewrite reverse_cons, reverse_app, IH. reflexivity.
Qed.

Lemma all_reverse (p : ascii -> bool) (s : string) :
  Bytes.all p (Bytes.reverse s) = Bytes.all p s.
Proof.
  induction s as [|c s IH]; [reflexivity|].
  rewrite reverse_cons, all_app, IH. cbn. rewrite andb_true_r. apply andb_comm.
Qed.

Lemma begins_with_app (p : ascii -> bool) (a b : string) :
  begins_with p (a ++ b) = false -> begins_with p a = false.
Proof. destruct a as [|c a]; [reflexivity|]. now rewrite app_cons. Qed.

Lemma begins_with_all (p q : ascii -> bool) (s : string) :
  (forall c, p c = true -> q c = false) ->
  begins_with p s = true -> Bytes.all q s = false.
Proof.
  intros PQ. destruct s as [|c s]; cbn; [discriminate|].
  intros E. now rewrite (PQ c E).
Qed.

Lemma not_ascii_is_ascii (c : ascii) :
  not_ascii c = true -> Bytes.is_ascii c = false.
Proof.
  unfold not_ascii, Bytes.is_ascii, utf8.RuneSelf. intros E.
  apply Z.leb_le in E. apply Z.ltb_ge. exact E.
Qed.

(** What one scan of [bytes.TrimSpace] leaves: the white space it has
    passed, and a rest that begins with a byte that is no ASCII space. *)
Lemma skip_space_spec (s : string) :
  exists lead rest,
    s = lead ++ rest
    /\ Bytes.all asciiSpace lead = true
    /\ ((skip_space s = inl rest
         /\ begins_with asciiSpace rest = false
         /\ begins_with not_ascii rest = false)
        \/ (skip_space s = inr rest /\ begins_with not_ascii rest = true)).
Proof.
  induction s as [|c s IH].
  - exists EmptyString, EmptyString.
    split; [reflexivity|]. split; [reflexivity|]. left. auto.
  - cbn [skip_space].
    destruct (utf8.RuneSelf <=? Bytes.byte_val c) eqn:N.
    + exists EmptyString, (String c s).
      split; [reflexivity|]. split; [reflexivity|]. right.
      split; [reflexivity|]. exact N.
    + destruct (asciiSpace c) eqn:A.
      * destruct IH as (lead & rest & E & L & R).
        exists (String c lead), rest. rewrite app_cons, <- E.
        split; [reflexivity|]. split; [|exact R].
        cbn [Bytes.all]. now rewrite A, L.
      * exists EmptyString, (String c s).
        split; [reflexivity|]. split; [reflexivity|]. left.
        split; [reflexivity|]. split; [exact A|exact N].
Qed.

Section Trimming.

Context `{Platform}.

(** [TrimSpace] cuts ASCII white space off both ends: what is left begins
    and ends with no ASCII space, unless a byte that is not ASCII stands
    at one of its ends, and then the library trims it further. *)
Lemma TrimSpace_spec (line : string) :
  exists lead core trail,
    line = lead ++ core ++ trail
    /\ Bytes.all asciiSpace lead = true
    /\ Bytes.all asciiSpace trail = true
    /\ ((TrimSpace line = core
         /\ begins_with asciiSpace core = false
         /\ ends_with asciiSpace core = false)
        \/ (TrimSpace line = TrimFunc_IsSpace core
            /\ (begins_with not_ascii core = true
                \/ ends_with not_ascii core = true))).
Proof.
  unfold TrimSpace.
  destruct (skip_space_spec line) as (lead & rest & -> & L & [(S1 & B1 & _)|(S1 & B1)]);
    rewrite S1.
  2:{ exists lead, rest, EmptyString. rewrite sapp_nil_r. auto 10. }
  destruct (skip_space_spec (Bytes.reverse rest))
    as (daert & tser & R & L' & [(S2 & B2 & _)|(S2 & B2)]); rewrite S2;
    apply (f_equal Bytes.reverse) in R;
    rewrite reverse_involutive, reverse_app in R; subst rest;
    exists lead, (Bytes.reverse tser), (Bytes.reverse daert);
    rewrite all_reverse; unfold ends_with; rewrite reverse_involutive.
  - apply begins_with_app in B1. auto 10.
  - auto 10.
Qed.

Lemma TrimSpace_ascii (line : string) :
  Bytes.all Bytes.is_ascii line = true ->
  exists lead trail,
    line = lead ++ TrimSpace line ++ trail
    /\ Bytes.all asciiSpace lead = true
    /\ Bytes.all asciiSpace trail = true
    /\ begins_with asciiSpace (TrimSpace line) = false
    /\ ends_with asciiSpace (TrimSpace line) = false.
Proof.
  intros A.
  destruct (TrimSpace_spec line)
    as (lead & core & trail & E & L & T & [(-> & B & F)|(_ & N)]).
  - exists lead, trail. auto.
  - exfalso. rewrite E, !all_app in A.
    apply andb_prop in A. destruct A as [_ A].
    apply andb_prop in A. destruct A as [A _].
    destruct N as [N|N].
    + apply (begins_with_all _ Bytes.is_ascii) in N;
        [congruence|exact not_ascii_is_ascii].
    + unfold ends_with in N.
      apply (begins_with_all _ Bytes.is_ascii) in N;
        [|exact not_ascii_is_ascii].
      rewrite all_reverse in N. congruence.
Qed.

Example parse_padded : parseGroups example_script_padded = [["a"; "b"]; ["c"]].
Proof. reflexivity. Qed.

End Trimming.

(** ** ScriptParser and EventDecoder *)

Lemma Split_not_nil (sep : ascii) (s : string) : Bytes.Split sep s <> [].
Proof.
  destruct s as [|c t]; cbn; [discriminate|].
  destruct (Ascii.eqb c sep); [discriminate|].
  destruct (Bytes.Split sep t); discriminate.
Qed.

Lemma Join_Split (sep : ascii) (s : string) :
  Bytes.Join sep (Bytes.Split sep s) = s.
Proof.
  induction s as [|c t IH]; [reflexivity|].
  cbn [Bytes.Split].
  pose proof (Split_not_nil sep t) as NN.
  destruct (Ascii.eqb_spec c sep) as [->|Hc].
  - destruct (Bytes.Split sep t) as [|h r]; [contradiction|].
    change (Bytes.Join sep (EmptyString :: h :: r))
      with (EmptyString ++ String sep (Bytes.Join sep (h :: r))).
    now rewrite IH.
  - destruct (Bytes.Split sep t) as [|h r]; [contradiction|].
    destruct r as [|h' r].
    + cbn in *. now rewrite IH.
    + change (Bytes.Join sep (String c h :: h' :: r))
        with (String c h ++ String sep (Bytes.Join sep (h' :: r))).
      change (Bytes.Join sep (h :: h' :: r))
        with (h ++ String sep (Bytes.Join sep (h' :: r))) in IH.
      now rewrite app_cons, IH.
Qed.

Section Parser.

Context `{Platform}.

Lemma parse_loop (lines : list string) (groups : list (list string)) :
  fold_left
    (fun groups each =>
       let line := TrimSpace each in
       if String.eqb line EmptyString
          || Bytes.HasPrefix line "#"
          || Bytes.HasPrefix line "//"
       then groups
       else (groups ++ [Bytes.Split "," line])%list)
    lines groups
  = (groups ++ List.map (Bytes.Split ",")
                 (List.filter (fun line => negb (skipped line))
                              (List.map TrimSpace lines)))%list.
Proof.
  revert groups; induction lines as [|each lines IH]; intros groups.
  - cbn. now rewrite app_nil_r.
  - cbn [fold_left List.map List.filter]. rewrite IH. unfold skipped.
    destruct (String.eqb (TrimSpace each) EmptyString
              || Bytes.HasPrefix (TrimSpace each) "#"
              || Bytes.HasPrefix (TrimSpace each) "//"); cbn [negb].
    + reflexivity.
    + cbn [List.map]. now rewrite <- app_assoc.
Qed.

Lemma parseGroups_spec (b : string) : parseGroups b = parse_spec b.
Proof. unfold parseGroups. now rewrite parse_loop. Qed.

Lemma readMessageGroups_run (snapshotRootDir id : string) (w : World) :
  readMessageGroups snapshotRootDir id w
  = (match os_ReadFile (filepath_Join snapshotRootDir (fmt.Sprintf_s_txt id)) (os w) with
     | inl b => Done (parseGroups b)
     | inr err => Panicked (PanicError err)
     end,
     log w [CallReadFile (filepath_Join snapshotRootDir (fmt.Sprintf_s_txt id))]).
Proof.
  unfold readMessageGroups. rewrite bind_run, ReadFile_run.
  now destruct (os_ReadFile _ (os w)).
Qed.

(** C7: the parser splits the file on the newline, trims each line, skips
    the lines that are then empty or begin with [#] or [//], and splits
    each line left on the comma into one group, the groups in the order of
    the lines; the file ["a,b\n# comment\n\nc"] gives the two groups
    [[decode "a"; decode "b"]] and [[decode "c"]], and so does the same
    file with white space around its lines.  Trimming cuts the ASCII
    white space off both ends of the line: what is left begins and ends
    with no ASCII space, always so for an ASCII line; when a byte that is
    not ASCII stands at an end of what is left, the library trims it
    further. *)
Theorem C7_script_parsing :
  (forall b : string, parseGroups b = parse_spec b)
  /\ (forall (snapshotRootDir id : string) (w : World),
        readMessageGroups snapshotRootDir id w
        = (match os_ReadFile (filepath_Join snapshotRootDir (fmt.Sprintf_s_txt id)) (os w) with
           | inl b => Done (parse_spec b)
           | inr err => Panicked (PanicError err)
           end,
           log w [CallReadFile (filepath_Join snapshotRootDir (fmt.Sprintf_s_txt id))]))
  /\ parseGroups example_script = [["a"; "b"]; ["c"]]
  /\ List.map (List.map createKey) (parseGroups example_script)
     = [[createKey "a"; createKey "b"]; [createKey "c"]]
  /\ (forall line : string,
        exists lead core trail,
          line = lead ++ core ++ trail
          /\ Bytes.all asciiSpace lead = true
          /\ Bytes.all asciiSpace trail = true
          /\ ((TrimSpace line = core
               /\ begins_with asciiSpace core = false
               /\ ends_with asciiSpace core = false)
              \/ (TrimSpace line = TrimFunc_IsSpace core
                  /\ (begins_with not_ascii core = true
                      \/ ends_with not_ascii core = true))))
  /\ (forall line : string,
        Bytes.all Bytes.is_ascii line = true ->
        exists lead trail,
          line = lead ++ TrimSpace line ++ trail
          /\ Bytes.all asciiSpace lead = true
          /\ Bytes.all asciiSpace trail = true
          /\ begins_with asciiSpace (TrimSpace line) = false
          /\ ends_with asciiSpace (TrimSpace line) = false)
  /\ parseGroups example_script_padded = [["a"; "b"]; ["c"]].
Proof.
  split; [exact parseGroups_spec|].
  split.
  - intros. rewrite readMessageGroups_run.
    destruct (os_ReadFile _ (os w)); [now rewrite parseGroups_spec|reflexivity].
  - split; [reflexivity|]. split; [reflexivity|].
    split; [exact TrimSpace_spec|]. split; [exact TrimSpace_ascii|].
    reflexivity.
Qed.

(** C10: the tokens of a line are the pieces between its commas, as they
    are: put together again with commas they give the trimmed line, so
    nothing next to a comma is trimmed and an empty piece stays a token.
    The line ["a, b"] gives the tokens ["a"] and [" b"], the second one
    decoded to the literal text [" b"] and not ["b"]; two commas in a row,
    or one at the end, give the empty token, decoded to the literal text
    with no rune. *)
Theorem C10_tokens_verbatim :
  (forall b : string,
      Forall2 (fun group line => Bytes.Join "," group = line)
              (parseGroups b) (kept_lines b))
  /\ parseGroups "a, b" = [["a"; " b"]]
  /\ createKey " b" = mkKeyMsg KeyRunes [32; 98] false
  /\ createKey " b" <> createKey "b"
  /\ parseGroups "a,,b," = [["a"; ""; "b"; ""]]
  /\ createKey "" = mkKeyMsg KeyRunes [] false.
Proof.
  split.
  - intros b. rewrite parseGroups_spec. unfold parse_spec.
    induction (kept_lines b) as [|line lines IH]; cbn [List.map];
      constructor; [apply Join_Split|exact IH].
  - repeat split; try reflexivity. vm_compute. discriminate.
Qed.

(** C8: when the script file cannot be read, loading the script panics
    with the error of the read, and so does the replay, before it calls the
    model; no error value is returned. *)
Theorem C8_unreadable_script_panics
    (snapshotRootDir id : string) (w : World) (err : error) :
  os_ReadFile (filepath_Join snapshotRootDir (fmt.Sprintf_s_txt id)) (os w)
  = inr err ->
  readMessageGroups snapshotRootDir id w
  = (Panicked (PanicError err),
     log w [CallReadFile (filepath_Join snapshotRootDir (fmt.Sprintf_s_txt id))])
  /\ forall (S : Type) (model : Model S) (m : S) (verify : bool) (equal : VerifyFunc),
       RunBubbleTeaSnapshots (NewSnapshotSuite snapshotRootDir) m verify id equal w
       = (Panicked (PanicError err),
          log w [CallReadFile (filepath_Join snapshotRootDir (fmt.Sprintf_s_txt id))]).
Proof.
  intros E. split.
  - now rewrite readMessageGroups_run, E.
  - intros. unfold RunBubbleTeaSnapshots. cbn [rootDir NewSnapshotSuite].
    now rewrite bind_run, readMessageGroups_run, E.
Qed.

End Parser.

Lemma C7_witness :
  exists lead trail,
    "  a,b " = lead ++ @TrimSpace unix "  a,b " ++ trail
    /\ Bytes.all asciiSpace lead = true
    /\ Bytes.all asciiSpace trail = true
    /\ begins_with asciiSpace (@TrimSpace unix "  a,b ") = false
    /\ ends_with asciiSpace (@TrimSpace unix "  a,b ") = false.
Proof.
  apply (proj1 (proj2 (proj2 (proj2 (proj2 (proj2 (@C7_script_parsing unix))))))).
  reflexivity.
Defined.

Lemma C8_witness :
  @readMessageGroups unix "testdata" "run1" world0
  = (Panicked (PanicError (ErrNotExist "open" "testdata/run1.txt")),
     log world0 [CallReadFile "testdata/run1.txt"]).
Proof.
  apply (@C8_unreadable_script_panics unix "testdata" "run1" world0
           (ErrNotExist "open" "testdata/run1.txt")).
  reflexivity.
Defined.

(** ** ReplayEngine: settling *)

Section Settle.

Context {S : Type} `{Model S}.

Lemma m_Update_run (m : S) (msg : Msg) (w : World) :
  m_Update m msg w = (Done (Update m msg), log w [CallUpdate msg]).
Proof. reflexivity. Qed.

Lemma m_Cmd_run (c : unit -> Msg) (w : World) :
  m_Cmd c w = (Done (c tt), log w [CallCmd (c tt)]).
Proof. reflexivity. Qed.

Lemma m_View_run (m : S) (w : World) :
  m_View m w = (Done (View m), log w [CallView]).
Proof. reflexivity. Qed.

Lemma m_Init_run (m : S) (w : World) :
  m_Init m w = (Done (Init m), log w [CallInit]).
Proof. reflexivity. Qed.

Lemma runUpdates_loop_step (n : nat) (m : S) (c : unit -> Msg) (w : World) :
  runUpdates_loop (Datatypes.S n) m (Some c) w
  = match n with
    | O => (Panicked eternal_loop, log w [CallCmd (c tt); CallUpdate (c tt)])
    | Datatypes.S _ =>
        runUpdates_loop n (fst (Update m (c tt))) (snd (Update m (c tt)))
                        (log w [CallCmd (c tt); CallUpdate (c tt)])
    end.
Proof.
  change (runUpdates_loop (Datatypes.S n) m (Some c) w)
    with ((msg ← m_Cmd c;
           '(m', cmd') ← m_Update m msg;
           match n with
           | Datatypes.S _ => runUpdates_loop n m' cmd'
           | O => panic eternal_loop
           end) w).
  rewrite bind_run, m_Cmd_run, bind_run, m_Update_run, log_log.
  destruct (Update m (c tt)) as [m' cmd']. now destruct n.
Qed.

Lemma runUpdates_loop_run (n : nat) (m : S) (cmd : Cmd) (w : World) :
  runUpdates_loop (Datatypes.S n) m cmd w
  = (if settles_within n m cmd then Done (settled n m cmd)
     else Panicked eternal_loop,
     log w (settle_calls n m cmd)).
Proof.
  revert m cmd w; induction n as [|n IH]; intros m [c|] w;
    try (cbn; now rewrite log_nil).
  - now rewrite runUpdates_loop_step.
  - rewrite runUpdates_loop_step, IH, log_log.
    cbn [settles_within settle_calls settled].
    now destruct (Update m (c tt)).
Qed.

Lemma runUpdates_run (m : S) (msg : Msg) (w : World) :
  runUpdates m msg w
  = (if settles_within 99 (fst (Update m msg)) (snd (Update m msg))
     then Done (settled 99 (fst (Update m msg)) (snd (Update m msg)))
     else Panicked eternal_loop,
     log w (CallUpdate msg
            :: settle_calls 99 (fst (Update m msg)) (snd (Update m msg)))).
Proof.
  unfold runUpdates. rewrite bind_run, m_Update_run.
  destruct (Update m msg) as [m' cmd]. cbn [fst snd].
  now rewrite runUpdates_loop_run, log_log.
Qed.

Lemma settle_calls_count (n : nat) (m : S) (cmd : Cmd) :
  if settles_within n m cmd
  then (count is_cmd (settle_calls n m cmd) <= n)%nat
  else count is_cmd (settle_calls n m cmd) = Datatypes.S n.
Proof.
  revert m cmd; induction n as [|n IH]; intros m [c|]; cbn;
    try reflexivity; try lia.
  specialize (IH (fst (Update m (c tt))) (snd (Update m (c tt)))).
  destruct (Update m (c tt)) as [m' cmd']. cbn [fst snd] in IH.
  unfold count in *.
  destruct (settles_within n m' cmd'); lia.
Qed.

Lemma settles_within_mono (n k : nat) (m : S) (cmd : Cmd) :
  (n <= k)%nat -> settles_within n m cmd = true ->
  settles_within k m cmd = true.
Proof.
  revert k m cmd; induction n as [|n IH]; intros k m [c|] L; cbn;
    try discriminate; try (destruct k; reflexivity).
  destruct k as [|k]; [lia|]. cbn.
  destruct (Update m (c tt)) as [m' cmd']. apply IH. lia.
Qed.

(** C3 (amended): [runUpdates] settles without the fuse exactly when the
    effect chain that the first update starts yields "no further event"
    within 99 steps, and then forces at most 99 effects; in every other
    case, so for a chain that never ends, it panics with "counter == 0,
    eternal loop" after having forced exactly 100 effects, each delivered
    by an update. *)
Theorem C3_settle_fuse (m : S) (msg : Msg) (w : World) :
  let m1 := fst (Update m msg) in
  let c1 := snd (Update m msg) in
  runUpdates m msg w
  = (if settles_within 99 m1 c1 then Done (settled 99 m1 c1)
     else Panicked (PanicString "counter == 0, eternal loop"),
     log w (CallUpdate msg :: settle_calls 99 m1 c1))
  /\ (if settles_within 99 m1 c1
      then (count is_cmd (settle_calls 99 m1 c1) <= 99)%nat
      else count is_cmd (settle_calls 99 m1 c1) = 100%nat).
Proof.
  cbn zeta. split; [apply runUpdates_run|apply settle_calls_count].
Qed.

End Settle.

(** C3 (as stated, refuted): a chain of exactly 100 effects yields "no
    further event" within 100 steps, and the fuse fires all the same: the
    guard is tested after the 100th update, before the loop looks at the
    effect that update returned. *)
Lemma C3_counterexample :
  @settles_within nat (counting 100) 100
     (fst (@Update nat (counting 100) O MsgNil))
     (snd (@Update nat (counting 100) O MsgNil)) = true
  /\ fst (@runUpdates nat (counting 100) O MsgNil world0)
     = Panicked (PanicString "counter == 0, eternal loop").
Proof. split; vm_compute; reflexivity. Qed.

Example C3_chain_of_99_settles :
  fst (@runUpdates nat (counting 99) O MsgNil world0) = Done 100%nat.
Proof. vm_compute. reflexivity. Qed.

(** ** ReplayEngine: the calls of a replay *)

Lemma snapshot_names_app (a b : list Call) :
  snapshot_names (a ++ b)%list = (snapshot_names a ++ snapshot_names b)%list.
Proof.
  induction a as [|c a IH]; [reflexivity|].
  destruct c; cbn; now rewrite ?IH.
Qed.

Section ReplayCalls.

Context `{Platform} {S : Type} `{Model S}.

Lemma settle_calls_names (n : nat) (m : S) (cmd : Cmd) :
  snapshot_names (settle_calls n m cmd) = [].
Proof.
  revert m cmd; induction n as [|n IH]; intros m [c|]; cbn; try reflexivity.
  destruct (Update m (c tt)). apply IH.
Qed.

Lemma Run_calls (v : Snapshot) (view : string) (w : World) :
  exists calls,
    trace (snd (Run v view w))
    = (trace w ++ CallReadFile (filep v) :: calls)%list
    /\ snapshot_names calls = [].
Proof.
  rewrite Run_run.
  destruct (stored v (os w)) as [content [e|]]; [now exists []|].
  destruct (verify v && negb (String.eqb content EmptyString));
    [now eexists [_]|].
  destruct (negb (String.eqb view content)); [|now exists []].
  now exists [CallWriteFile (filep v) view].
Qed.

Lemma runSnapshot_calls (snapshotSuite : SnapshotSuite) (verify : bool)
    (seriesID : string) (equal : VerifyFunc) (m : S) (i : Z) (w : World) :
  exists calls,
    trace (snd (runSnapshot snapshotSuite verify seriesID equal m i w))
    = (trace w
       ++ [CallNewSnapshot (fmt.Sprintf_s_03d seriesID i) verify;
           CallView;
           CallReadFile (filepath_Join (rootDir snapshotSuite)
                                       (fmt.Sprintf_s_03d seriesID i))]
       ++ calls)%list
    /\ snapshot_names calls = [].
Proof.
  unfold runSnapshot.
  rewrite bind_run, call_run, bind_run, m_View_run, log_log, bind_run.
  set (v := NewSnapshot snapshotSuite (fmt.Sprintf_s_03d seriesID i) verify equal).
  set (w1 := log w _).
  destruct (Run_calls v (View m) w1) as (calls & E & N).
  exists calls. split; [|exact N].
  destruct (Run v (View m) w1) as [[[e|]|p] w2];
    unfold panic, mret, M_ret; cbn [snd] in *;
    rewrite E; subst w1; cbn [log trace];
    rewrite <- !app_assoc; reflexivity.
Qed.

Lemma runUpdates_calls (m : S) (msg : Msg) (w : World) :
  exists calls,
    trace (snd (runUpdates m msg w)) = (trace w ++ calls)%list
    /\ snapshot_names calls = [].
Proof.
  rewrite runUpdates_run. eexists. split; [reflexivity|].
  cbn [snapshot_names]. apply settle_calls_names.
Qed.

Lemma deliver_calls (group : list string) (m : S) (w : World) :
  exists calls,
    trace (snd (deliver group m w)) = (trace w ++ calls)%list
    /\ snapshot_names calls = [].
Proof.
  revert m w; induction group as [|each rest IH]; intros m w.
  - exists []. cbn. now rewrite app_nil_r.
  - cbn [deliver]. rewrite bind_run.
    destruct (runUpdates_calls m (MsgKey (createKey each)) w) as (c1 & E1 & N1).
    destruct (runUpdates m (MsgKey (createKey each)) w) as [[m'|p] w1];
      cbn [snd] in *.
    + destruct (IH m' w1) as (c2 & E2 & N2).
      exists (c1 ++ c2)%list. rewrite E2, E1, <- app_assoc.
      now rewrite snapshot_names_app, N1, N2.
    + now exists c1.
Qed.

Lemma replay_groups_calls (snapshotSuite : SnapshotSuite) (verify : bool)
    (seriesID : string) (equal : VerifyFunc)
    (messageGroups : list (list string)) (i : nat) (m : S) (w : World) :
  exists calls k,
    trace (snd (replay_groups snapshotSuite verify seriesID equal i
                              messageGroups m w))
    = (trace w ++ calls)%list
    /\ snapshot_names calls
       = List.map (snapshot_name seriesID) (seq (Datatypes.S i) k)
    /\ (k <= List.length messageGroups)%nat
    /\ (fst (replay_groups snapshotSuite verify seriesID equal i
                           messageGroups m w) = Done tt ->
        k = List.length messageGroups).
Proof.
  revert i m w; induction messageGroups as [|group rest IH]; intros i m w.
  - exists [], O. cbn. rewrite app_nil_r. auto.
  - cbn [replay_groups]. rewrite bind_run.
    destruct (deliver_calls group m w) as (c1 & E1 & N1).
    destruct (deliver group m w) as [[m'|p] w1]; cbn [snd] in E1.
    2:{ exists c1, O. cbn. rewrite N1. repeat split; auto with arith.
        discriminate. }
    rewrite bind_run.
    destruct (runSnapshot_calls snapshotSuite verify seriesID equal m'
                (Z.of_nat i + 1) w1) as (c2 & E2 & N2).
    replace (Z.of_nat i + 1) with (Z.of_nat (Datatypes.S i)) in * by lia.
    destruct (runSnapshot snapshotSuite verify seriesID equal m'
                (Z.of_nat (Datatypes.S i)) w1) as [[[]|p] w2]; cbn [snd] in E2.
    + destruct (IH (Datatypes.S i) m' w2) as (c3 & k & E3 & N3 & L3 & D3).
      eexists _, (Datatypes.S k). rewrite E3, E2, E1.
      rewrite <- !app_assoc. split; [reflexivity|].
      rewrite !snapshot_names_app, N1, N2, N3. cbn.
      repeat split; auto with arith; intros D; now rewrite (D3 D).
    + eexists _, 1%nat. cbn [snd fst]. rewrite E2, E1.
      rewrite <- !app_assoc. split; [reflexivity|].
      rewrite !snapshot_names_app, N1, N2. cbn.
      repeat split; auto with arith. discriminate.
Qed.

End ReplayCalls.

(** ** Names that the sanitizer leaves alone *)

Lemma map_sanitize_safe (s : string) :
  Bytes.all safe_byte s = true -> Bytes.map sanitize_byte s = s.
Proof.
  induction s as [|c t IH]; [reflexivity|].
  cbn [Bytes.all Bytes.map]. intros E. apply andb_prop in E.
  destruct E as [Ec Et]. unfold sanitize_byte at 1. now rewrite Ec, IH.
Qed.

Lemma safe_is_ascii (s : string) :
  Bytes.all safe_byte s = true -> Bytes.all Bytes.is_ascii s = true.
Proof.
  induction s as [|c t IH]; [reflexivity|].
  cbn [Bytes.all]. intros E. apply andb_prop in E. destruct E as [Ec Et].
  rewrite IH by assumption. unfold Bytes.is_ascii.
  apply safe_rune_ascii in Ec. apply andb_true_intro; split; [lia|reflexivity].
Qed.

Lemma ToSafeFilename_safe (s : string) :
  Bytes.all safe_byte s = true -> ToSafeFilename s = s.
Proof.
  intros E. rewrite ToSafeFilename_unfold.
  destruct (sanitize_scan_ascii (String.length s) s) as [-> _];
    [lia|now apply safe_is_ascii|].
  now apply map_sanitize_safe.
Qed.

Lemma decimal_uint_safe (u : Decimal.uint) :
  Bytes.all safe_byte (NilEmpty.string_of_uint u) = true.
Proof. induction u; cbn; auto. Qed.

Lemma zeros_safe (n : nat) : Bytes.all safe_byte (fmt.zeros n) = true.
Proof. induction n; cbn; auto. Qed.

Lemma d03_safe (i : Z) : Bytes.all safe_byte (fmt.d03 i) = true.
Proof.
  unfold fmt.d03, fmt.pad0, fmt.decimal.
  destruct (i <? 0); cbn [Bytes.all];
    rewrite all_app, zeros_safe, decimal_uint_safe; reflexivity.
Qed.

Lemma Sprintf_s_03d_safe (s : string) (i : Z) :
  Bytes.all safe_byte s = true ->
  Bytes.all safe_byte (fmt.Sprintf_s_03d s i) = true.
Proof.
  intros E. unfold fmt.Sprintf_s_03d.
  now rewrite !all_app, E, d03_safe.
Qed.

(** ** ReplayEngine: the whole replay *)

Section Whole.

Context `{Platform} {S : Type} `{Model S}.

(** The calls of a replay up to the first snapshot. *)
Lemma RunBubbleTeaSnapshots_start (snapshotSuite : SnapshotSuite) (m : S)
    (verify : bool) (seriesID : string) (equal : VerifyFunc) (w : World)
    (b : string) :
  os_ReadFile (filepath_Join (rootDir snapshotSuite) (fmt.Sprintf_s_txt seriesID))
              (os w) = inl b ->
  let msg0 := Msg_of_Cmd (Init m) in
  let m1 := fst (Update m msg0) in
  let c1 := snd (Update m msg0) in
  exists rest,
    trace (snd (RunBubbleTeaSnapshots snapshotSuite m verify seriesID equal w))
    = (trace w
       ++ [CallReadFile (filepath_Join (rootDir snapshotSuite)
                                       (fmt.Sprintf_s_txt seriesID));
           CallInit; CallView; CallUpdate msg0]
       ++ settle_calls 99 m1 c1 ++ rest)%list
    /\ (if settles_within 99 m1 c1
        then exists rest' k,
             rest = CallNewSnapshot (snapshot_name seriesID 0) verify :: rest'
             /\ snapshot_names rest'
                = List.map (snapshot_name seriesID) (seq 1 k)
             /\ (k <= List.length (parseGroups b))%nat
             /\ (fst (RunBubbleTeaSnapshots snapshotSuite m verify seriesID
                        equal w) = Done tt ->
                 k = List.length (parseGroups b))
        else rest = []
             /\ fst (RunBubbleTeaSnapshots snapshotSuite m verify seriesID
                       equal w) = Panicked eternal_loop).
Proof.
  intros E msg0 m1 c1. unfold RunBubbleTeaSnapshots.
  rewrite bind_run, readMessageGroups_run, E.
  rewrite bind_run, m_Init_run, log_log.
  rewrite bind_run, m_View_run, log_log.
  rewrite bind_run, runUpdates_run, log_log.
  fold msg0 m1 c1.
  destruct (settles_within 99 m1 c1).
  2:{ exists []. cbn [snd fst log trace]. rewrite app_nil_r.
      rewrite <- !app_assoc. auto. }
  rewrite bind_run.
  set (w1 := log w _).
  destruct (runSnapshot_calls snapshotSuite verify seriesID equal
              (settled 99 m1 c1) 0 w1) as (c2 & E2 & N2).
  destruct (runSnapshot snapshotSuite verify seriesID equal
              (settled 99 m1 c1) 0 w1) as [[[]|p] w2]; cbn [snd] in E2.
  - destruct (replay_groups_calls snapshotSuite verify seriesID equal
                (parseGroups b) 0 (settled 99 m1 c1) w2)
      as (c3 & k & E3 & N3 & L3 & D3).
    eexists. rewrite E3, E2. subst w1. cbn [log trace].
    rewrite <- !app_assoc. split; [reflexivity|].
    eexists _, k. split; [reflexivity|].
    cbn [snapshot_names]. rewrite !snapshot_names_app, N2, N3. auto.
  - eexists. cbn [snd fst]. rewrite E2. subst w1. cbn [log trace].
    rewrite <- !app_assoc. split; [reflexivity|].
    eexists _, O. split; [reflexivity|].
    cbn [snapshot_names]. rewrite N2.
    repeat split; auto with arith. discriminate.
Qed.

(** C2 (amended): after [Init] and one [View] the replay makes exactly one
    update call, whether [Init] returned a command or not, and then settles
    the command this update returned: each command is forced and the
    message it gives is delivered by an update, until an update returns no
    command or the fuse fires; snapshot 0 is taken right after that. *)
Theorem C2_one_update_then_settle (snapshotSuite : SnapshotSuite) (m : S)
    (verify : bool) (seriesID : string) (equal : VerifyFunc) (w : World)
    (b : string) :
  os_ReadFile (filepath_Join (rootDir snapshotSuite) (fmt.Sprintf_s_txt seriesID))
              (os w) = inl b ->
  let msg0 := Msg_of_Cmd (Init m) in
  let m1 := fst (Update m msg0) in
  let c1 := snd (Update m msg0) in
  exists rest,
    trace (snd (RunBubbleTeaSnapshots snapshotSuite m verify seriesID equal w))
    = (trace w
       ++ [CallReadFile (filepath_Join (rootDir snapshotSuite)
                                       (fmt.Sprintf_s_txt seriesID));
           CallInit; CallView; CallUpdate msg0]
       ++ settle_calls 99 m1 c1 ++ rest)%list
    /\ (if settles_within 99 m1 c1
        then exists rest',
             rest = CallNewSnapshot (fmt.Sprintf_s_03d seriesID 0) verify :: rest'
        else rest = []).
Proof.
  intros E msg0 m1 c1.
  destruct (RunBubbleTeaSnapshots_start snapshotSuite m verify seriesID equal
              w b E) as (rest & Et & R).
  exists rest. split; [exact Et|].
  fold msg0 m1 c1 in R.
  destruct (settles_within 99 m1 c1).
  - destruct R as (rest' & k & -> & _). now exists rest'.
  - now destruct R.
Qed.

(** The names handed to the store, whatever the replay runs into. *)
Lemma RunBubbleTeaSnapshots_names (snapshotSuite : SnapshotSuite) (m : S)
    (verify : bool) (seriesID : string) (equal : VerifyFunc) (w : World) :
  exists k,
    snapshot_names
      (trace (snd (RunBubbleTeaSnapshots snapshotSuite m verify seriesID equal w)))
    = (snapshot_names (trace w)
       ++ List.map (snapshot_name seriesID) (seq 0 k))%list
    /\ (fst (RunBubbleTeaSnapshots snapshotSuite m verify seriesID equal w)
        = Done tt ->
        exists b,
          os_ReadFile (filepath_Join (rootDir snapshotSuite)
                                     (fmt.Sprintf_s_txt seriesID)) (os w) = inl b
          /\ k = Datatypes.S (List.length (parseGroups b))).
Proof.
  destruct (os_ReadFile (filepath_Join (rootDir snapshotSuite)
                                       (fmt.Sprintf_s_txt seriesID)) (os w))
    as [b|err] eqn:E.
  - destruct (RunBubbleTeaSnapshots_start snapshotSuite m verify seriesID equal
                w b E) as (rest & Et & R).
    cbn zeta in *. rewrite Et.
    rewrite !snapshot_names_app, settle_calls_names. cbn [snapshot_names app].
    destruct (settles_within 99 _ _).
    + destruct R as (rest' & k & -> & N & L & D).
      exists (Datatypes.S k). cbn [snapshot_names]. rewrite N. split.
      * reflexivity.
      * intros Dn. exists b. split; [reflexivity|]. now rewrite (D Dn).
    + destruct R as [-> P]. exists O. cbn. split; [reflexivity|].
      rewrite P. discriminate.
  - unfold RunBubbleTeaSnapshots.
    rewrite bind_run, readMessageGroups_run, E. cbn [snd fst log trace].
    exists O. rewrite snapshot_names_app. cbn. split; [reflexivity|discriminate].
Qed.

(** C1 (amended): the name handed to the store for snapshot [i] of the run
    [seriesID] is [seriesID], an underscore and [i] padded with zeros to
    three digits, as formatted: it is not passed through the sanitizer
    (which would leave it as it is when [seriesID] has safe characters
    only), and the path of the file is the join of the root of the suite
    and that name. *)
Theorem C1_snapshot_names_as_formatted (snapshotSuite : SnapshotSuite)
    (verify : bool) (seriesID : string) (equal : VerifyFunc) :
  (forall (m : S) (i : Z) (w : World),
      exists calls,
        trace (snd (runSnapshot snapshotSuite verify seriesID equal m i w))
        = (trace w
           ++ [CallNewSnapshot (fmt.Sprintf_s_03d seriesID i) verify;
               CallView;
               CallReadFile (filepath_Join (rootDir snapshotSuite)
                                           (fmt.Sprintf_s_03d seriesID i))]
           ++ calls)%list
        /\ snapshot_names calls = [])
  /\ (forall (m : S) (w : World),
        exists k,
          snapshot_names
            (trace (snd (RunBubbleTeaSnapshots snapshotSuite m verify seriesID
                           equal w)))
          = (snapshot_names (trace w)
             ++ List.map (fun i => fmt.Sprintf_s_03d seriesID (Z.of_nat i))
                         (seq 0 k))%list
          /\ (fst (RunBubbleTeaSnapshots snapshotSuite m verify seriesID equal w)
              = Done tt ->
              exists b,
                os_ReadFile (filepath_Join (rootDir snapshotSuite)
                                           (fmt.Sprintf_s_txt seriesID)) (os w)
                = inl b
                /\ k = Datatypes.S (List.length (parseGroups b))))
  /\ (Bytes.all safe_byte seriesID = true ->
      forall i : Z,
        ToSafeFilename (fmt.Sprintf_s_03d seriesID i)
        = fmt.Sprintf_s_03d seriesID i).
Proof.
  split; [|split].
  - intros. apply runSnapshot_calls.
  - intros. apply RunBubbleTeaSnapshots_names.
  - intros E i. apply ToSafeFilename_safe. now apply Sprintf_s_03d_safe.
Qed.

End Whole.

Lemma C1_witness :
  ToSafeFilename (fmt.Sprintf_s_03d "run1" 2) = fmt.Sprintf_s_03d "run1" 2.
Proof.
  apply (@C1_snapshot_names_as_formatted unix unit still
           (NewSnapshotSuite "testdata") true "run1" never_fails).
  reflexivity.
Defined.

(** C1 (as stated, refuted): for the run ["my run"] the store is handed the
    name ["my run_000"], which the sanitizer would have turned into
    ["my_run_000"], and the file is written under the name as handed. *)
Lemma C1_counterexample :
  let w := @RunBubbleTeaSnapshots unix unit still
             (NewSnapshotSuite "testdata") tt false "my run" never_fails
             (mkWorld (script_os "testdata/my run.txt" "") []) in
  fst w = Done tt
  /\ snapshot_names (trace (snd w)) = ["my run_000"]
  /\ ToSafeFilename "my run_000" = "my_run_000"
  /\ files (os (snd w)) !! "testdata/my run_000" = Some "view"
  /\ files (os (snd w)) !! "testdata/my_run_000" = None.
Proof. vm_compute. repeat split; reflexivity. Qed.

Lemma C2_witness :
  exists rest,
    trace (snd (@RunBubbleTeaSnapshots unix nat eager
                  (NewSnapshotSuite "testdata") O false "run1" never_fails
                  (mkWorld (script_os "testdata/run1.txt" "enter") [])))
    = ([] ++ [CallReadFile "testdata/run1.txt"; CallInit; CallView;
              CallUpdate (MsgCmd tick)]
       ++ [] ++ rest)%list
    /\ exists rest', rest = CallNewSnapshot "run1_000" false :: rest'.
Proof.
  apply (@C2_one_update_then_settle unix nat eager
           (NewSnapshotSuite "testdata") O false "run1" never_fails
           (mkWorld (script_os "testdata/run1.txt" "enter") []) "enter").
  reflexivity.
Defined.

(** C2 (as stated, refuted): the model [still] returns no command from
    [Init], and an update call is made before snapshot 0 all the same; the
    model [eager] returns a command from [Init], and this command is not
    forced: it is itself the message of the first update. *)
Lemma C2_counterexample :
  @Init unit still tt = None
  /\ trace (snd (@RunBubbleTeaSnapshots unix unit still
                   (NewSnapshotSuite "testdata") tt false "run1" never_fails
                   (mkWorld (script_os "testdata/run1.txt" "") [])))
     = [CallReadFile "testdata/run1.txt"; CallInit; CallView;
        CallUpdate MsgCmdNil;
        CallNewSnapshot "run1_000" false; CallView;
        CallReadFile "testdata/run1_000";
        CallWriteFile "testdata/run1_000" "view"]
  /\ @Init nat eager O = Some tick
  /\ trace (snd (@RunBubbleTeaSnapshots unix nat eager
                   (NewSnapshotSuite "testdata") O false "run1" never_fails
                   (mkWorld (script_os "testdata/run1.txt" "") [])))
     = [CallReadFile "testdata/run1.txt"; CallInit; CallView;
        CallUpdate (MsgCmd tick);
        CallNewSnapshot "run1_000" false; CallView;
        CallReadFile "testdata/run1_000";
        CallWriteFile "testdata/run1_000" "1"].
Proof. vm_compute. repeat split; reflexivity. Qed.


(** * Further properties of the harness *)

(** ** The sanitizer *)

(** X1: sanitizing twice is sanitizing once, and the names the sanitizer
    leaves as they are are exactly those made of safe bytes. *)
Theorem X1_ToSafeFilename_idempotent (s : string) :
  ToSafeFilename (ToSafeFilename s) = ToSafeFilename s
  /\ (ToSafeFilename s = s <-> Bytes.all safe_byte s = true).
Proof.
  assert (A : Bytes.all safe_byte (ToSafeFilename s) = true).
  { rewrite ToSafeFilename_unfold. apply sanitize_scan. }
  split; [now apply ToSafeFilename_safe|]. split.
  - intros E. now rewrite <- E.
  - apply ToSafeFilename_safe.
Qed.

(** ** The decoder *)

Lemma byte_val_inj (c d : ascii) : Bytes.byte_val c = Bytes.byte_val d -> c = d.
Proof.
  unfold Bytes.byte_val. intros E. apply N2Z.inj in E.
  rewrite <- (ascii_N_embedding c), <- (ascii_N_embedding d). now rewrite E.
Qed.

Lemma decode_low (c : ascii) (t : string) (r : Z) (w : nat) :
  utf8.DecodeRuneInString (String c t) = (r, w) ->
  r < 0x80 -> w = 1%nat /\ r = Bytes.byte_val c.
Proof.
  intros D Hr.
  destruct (Bytes.is_ascii c) eqn:A.
  - rewrite decode_ascii in D by assumption. inversion D; auto.
  - unfold Bytes.is_ascii in A. apply Z.ltb_ge in A.
    pose proof (decode_nonascii c t r w D A). lia.
Qed.

Lemma scan_ascii (fuel : nat) (t : string) :
  (String.length t <= fuel)%nat ->
  Bytes.all Bytes.is_ascii t = true ->
  List.map fst (utf8.scan fuel t)
  = List.map Bytes.byte_val (list_ascii_of_string t).
Proof.
  revert t; induction fuel as [|f IH]; intros [|c t] L A; cbn in L;
    try reflexivity; try lia.
  cbn in A. apply andb_prop in A. destruct A as [Ac At].
  cbn [utf8.scan]. rewrite decode_ascii by assumption.
  cbn. f_equal. apply IH; [lia|assumption].
Qed.

Lemma scan_ascii_inv (fuel : nat) (s t : string) :
  (String.length s <= fuel)%nat ->
  Bytes.all Bytes.is_ascii t = true ->
  List.map fst (utf8.scan fuel s)
  = List.map Bytes.byte_val (list_ascii_of_string t) ->
  s = t.
Proof.
  revert s t; induction fuel as [|f IH]; intros [|c s] [|d t] L A E;
    cbn in L; try reflexivity; try lia; cbn [utf8.scan] in E;
    try discriminate.
  - destruct (utf8.DecodeRuneInString (String c s)); discriminate.
  - cbn in A. apply andb_prop in A. destruct A as [Ad At].
    destruct (utf8.DecodeRuneInString (String c s)) as [r w] eqn:D.
    cbn in E. injection E as E1 E2.
    assert (Hr : r < 0x80).
    { rewrite E1. unfold Bytes.is_ascii in Ad. lia. }
    destruct (decode_low c s r w D Hr) as [-> Er].
    cbn in E2. rewrite Er in E1. apply byte_val_inj in E1. subst d.
    f_equal. apply (IH s t); [lia|assumption|assumption].
Qed.

Lemma to_runes_ascii_inv (s t : string) :
  Bytes.all Bytes.is_ascii t = true ->
  utf8.to_runes s = utf8.to_runes t -> s = t.
Proof.
  intros A E. unfold utf8.to_runes, utf8.runes in E.
  rewrite (scan_ascii (String.length t) t) in E by (auto with arith).
  now apply (scan_ascii_inv (String.length s) s t).
Qed.

Lemma reserved_spec (s : string) :
  reserved s = true <->
  s = "enter" \/ s = "tab" \/ s = "esc" \/ s = "up" \/ s = "down".
Proof.
  unfold reserved. rewrite !orb_true_iff, !String.eqb_eq. tauto.
Qed.

Lemma createKey_reserved (s : string) :
  reserved s = true ->
  Type_ (createKey s) <> KeyRunes /\ Runes (createKey s) = [].
Proof.
  intros R. apply reserved_spec in R.
  destruct R as [-> | [-> | [-> | [-> | ->]]]]; split; cbn; congruence.
Qed.

Lemma createKey_text (s : string) :
  reserved s = false ->
  createKey s = mkKeyMsg KeyRunes (utf8.to_runes s) false.
Proof.
  unfold reserved, createKey. intros R.
  repeat (apply orb_false_elim in R; destruct R as [R ?]).
  now repeat match goal with H : String.eqb _ _ = false |- _ => rewrite H; clear H end.
Qed.

(** X2: exactly the five tokens [enter], [tab], [esc], [up] and [down],
    written so, decode to a key of their own, which carries no rune; every
    other token, the empty one and [Enter] included, decodes to one text
    event that carries all the runes of the token. *)
Theorem X2_createKey_reserved_or_text (s : string) :
  (Type_ (createKey s) = KeyRunes <-> reserved s = false)
  /\ (reserved s = true -> Runes (createKey s) = [])
  /\ (reserved s = false ->
      createKey s = mkKeyMsg KeyRunes (utf8.to_runes s) false)
  /\ (reserved s = true <->
      s = "enter" \/ s = "tab" \/ s = "esc" \/ s = "up" \/ s = "down").
Proof.
  split; [|split; [|split]].
  - destruct (reserved s) eqn:R.
    + destruct (createKey_reserved s R) as [T _]. split; [tauto|discriminate].
    + rewrite (createKey_text s R). cbn. tauto.
  - intros R. now apply createKey_reserved.
  - apply createKey_text.
  - apply reserved_spec.
Qed.

Lemma X2_witness :
  createKey "Enter" = mkKeyMsg KeyRunes (utf8.to_runes "Enter") false.
Proof.
  apply (X2_createKey_reserved_or_text "Enter"). reflexivity.
Defined.

(** X3: decoding an ASCII token is unambiguous: no other token, ASCII or
    not, decodes to the same event.  So the text of a reserved token cannot
    be sent as text: no token decodes to the text event with the runes of
    [enter]. *)
Theorem X3_createKey_ascii_injective (s t : string) :
  Bytes.all Bytes.is_ascii t = true ->
  (createKey s = createKey t -> s = t)
  /\ (reserved t = true ->
      createKey s <> mkKeyMsg KeyRunes (utf8.to_runes t) false).
Proof.
  intros A. assert (I : reserved s = false ->
                        createKey s = mkKeyMsg KeyRunes (utf8.to_runes t) false ->
                        s = t).
  { intros R E. rewrite (createKey_text s R) in E. injection E as E.
    now apply to_runes_ascii_inv. }
  split.
  - intros E. destruct (reserved s) eqn:Rs, (reserved t) eqn:Rt.
    + apply reserved_spec in Rs, Rt.
      destruct Rs as [-> | [-> | [-> | [-> | ->]]]], Rt as [-> | [-> | [-> | [-> | ->]]]];
        try reflexivity; discriminate E.
    + destruct (createKey_reserved s Rs) as [T _].
      rewrite E, (createKey_text t Rt) in T. now cbn in T.
    + destruct (createKey_reserved t Rt) as [T _].
      rewrite <- E, (createKey_text s Rs) in T. now cbn in T.
    + apply I; [auto|]. now rewrite E, (createKey_text t Rt).
  - intros Rt E. destruct (reserved s) eqn:Rs.
    + destruct (createKey_reserved s Rs) as [T _]. rewrite E in T. now cbn in T.
    + assert (s = t) by (apply I; auto). subst s. congruence.
Qed.

Lemma X3_witness :
  createKey "Enter" <> mkKeyMsg KeyRunes (utf8.to_runes "enter") false.
Proof.
  apply (X3_createKey_ascii_injective "Enter" "enter"); reflexivity.
Defined.

(** ** The parser *)

Lemma Split_app (sep : ascii) (a b : string) :
  Bytes.Split sep (a ++ String sep b)
  = (Bytes.Split sep a ++ Bytes.Split sep b)%list.
Proof.
  induction a as [|c a IH].
  - change (EmptyString ++ String sep b) with (String sep b).
    cbn [Bytes.Split]. now rewrite Ascii.eqb_refl.
  - rewrite app_cons. cbn [Bytes.Split]. rewrite IH.
    pose proof (Split_not_nil sep a) as NN.
    destruct (Ascii.eqb c sep); [reflexivity|].
    destruct (Bytes.Split sep a); [contradiction|reflexivity].
Qed.

Lemma Split_no_sep (sep : ascii) (s : string) :
  Forall (fun piece => Bytes.all (fun c => negb (Ascii.eqb c sep)) piece = true)
         (Bytes.Split sep s).
Proof.
  induction s as [|c t IH]; cbn [Bytes.Split].
  - repeat constructor.
  - destruct (Ascii.eqb c sep) eqn:E.
    + constructor; [reflexivity|exact IH].
    + destruct (Bytes.Split sep t) as [|h r]; [repeat constructor; cbn; now rewrite E|].
      inversion IH; subst. constructor; [|assumption].
      cbn. now rewrite E.
Qed.

(** The first piece of a split begins as the string does. *)
Lemma Split_first_prefix (sep : ascii) (s p : string) :
  String.prefix p (first_token (Bytes.Split sep s)) = true ->
  String.prefix p s = true.
Proof.
  revert p; induction s as [|c t IH]; intros p; cbn [Bytes.Split].
  - auto.
  - destruct (Ascii.eqb c sep).
    + cbn [first_token]. destruct p; [reflexivity|discriminate].
    + assert (E : first_token
                    match Bytes.Split sep t with
                    | [] => [String c EmptyString]
                    | h :: r => String c h :: r
                    end
                  = String c (first_token (Bytes.Split sep t))).
      { now destruct (Bytes.Split sep t). }
      rewrite E. destruct p as [|d p]; [reflexivity|].
      cbn [String.prefix]. destruct (ascii_dec d c); [apply IH|auto].
Qed.

Section ParserMore.

Context `{Platform}.

(** X4: a script is parsed line by line: the groups of two scripts put
    one after the other with a newline between them are the groups of the
    first followed by the groups of the second. *)
Theorem X4_parseGroups_app (a b : string) :
  parseGroups (a ++ nl ++ b) = (parseGroups a ++ parseGroups b)%list.
Proof.
  rewrite !parseGroups_spec. unfold parse_spec, kept_lines, nl.
  change (String "010" EmptyString ++ b) with (String "010" b).
  now rewrite Split_app, List.map_app, List.filter_app, List.map_app.
Qed.

Lemma skipped_false (line : string) :
  skipped line = false ->
  line <> EmptyString
  /\ String.prefix "#" line = false /\ String.prefix "//" line = false.
Proof.
  unfold skipped, Bytes.HasPrefix. intros E.
  apply orb_false_elim in E. destruct E as [E E3].
  apply orb_false_elim in E. destruct E as [E1 E2].
  apply String.eqb_neq in E1. auto.
Qed.

(** X5: every group the parser returns has at least one token and is not
    the single empty token; none of its tokens contains a comma; and its
    first token begins neither with [#] nor with [//].  There are no more
    groups than lines. *)
Theorem X5_parseGroups_wellformed (b : string) :
  Forall (fun group =>
            group <> [] /\ group <> [EmptyString]
            /\ Forall (fun token => no_comma token = true) group
            /\ Bytes.HasPrefix (first_token group) "#" = false
            /\ Bytes.HasPrefix (first_token group) "//" = false)
         (parseGroups b)
  /\ (List.length (parseGroups b) <= List.length (Bytes.Split "010" b))%nat.
Proof.
  rewrite parseGroups_spec. unfold parse_spec, kept_lines. split.
  - apply Forall_map, Forall_forall. intros line Hin.
    apply list_elem_of_In, filter_In in Hin. destruct Hin as [_ K].
    apply negb_true_iff, skipped_false in K. destruct K as (K1 & K2 & K3).
    split; [apply Split_not_nil|]. split.
    { intros E. apply K1. rewrite <- (Join_Split "," line), E. reflexivity. }
    split; [apply Split_no_sep|]. unfold Bytes.HasPrefix. split.
    + destruct (String.prefix "#" (first_token (Bytes.Split "," line))) eqn:P;
        [|reflexivity].
      apply Split_first_prefix in P. congruence.
    + destruct (String.prefix "//" (first_token (Bytes.Split "," line))) eqn:P;
        [|reflexivity].
      apply Split_first_prefix in P. congruence.
  - rewrite List.length_map.
    etransitivity; [apply List.filter_length_le|]. now rewrite List.length_map.
Qed.

End ParserMore.

(** ** The store *)

(** X6: a call of [Run] leaves every other file as it is, and the read
    and write faults too. *)
Theorem X6_Run_touches_own_file_only
    (v : Snapshot) (view : string) (w : World) (p : string) :
  p <> filep v ->
  files (os (snd (Run v view w))) !! p = files (os w) !! p
  /\ read_fault (os (snd (Run v view w))) = read_fault (os w)
  /\ write_fault (os (snd (Run v view w))) = write_fault (os w).
Proof.
  intros Hp. destruct (Run_overwrites v view w) as [E|(content & _ & _ & _ & E)];
    rewrite E; [auto|].
  unfold set_file. cbn. split; [|auto].
  apply lookup_insert_ne. congruence.
Qed.

Lemma X6_witness :
  files (os (snd (Run (board false) "xo"
                      (mkWorld (script_os "testdata/other" "kept") []))))
    !! "testdata/other"
  = Some "kept".
Proof.
  apply (X6_Run_touches_own_file_only (board false) "xo"
           (mkWorld (script_os "testdata/other" "kept") []) "testdata/other").
  discriminate.
Defined.

(** X7: running a snapshot again with the same view changes nothing
    more: the file system after the second run is the one after the first,
    and when the first run returned nil the second run does not write. *)
Theorem X7_Run_twice (v : Snapshot) (view : string) (w : World) :
  let w1 := snd (Run v view w) in
  let w2 := snd (Run v view w1) in
  os w2 = os w1
  /\ (fst (Run v view w) = Done None ->
      exists calls, trace w2 = (trace w1 ++ calls)%list
                    /\ List.filter is_write calls = []).
Proof.
  cbn zeta.
  rewrite (Run_run v view (snd (Run v view w))).
  rewrite (Run_run v view w).
  destruct (stored v (os w)) as [content [e|]] eqn:St; cbn [snd fst os log].
  { rewrite St. cbn [snd os log trace]. split; [reflexivity|discriminate]. }
  destruct (verify v && negb (String.eqb content EmptyString)) eqn:G;
    cbn [snd fst os log].
  { rewrite St, G. cbn [snd os log trace]. split; [reflexivity|].
    intros _. eexists. split; reflexivity. }
  destruct (String.eqb_spec view content) as [->|Hne]; cbn [negb snd fst os log].
  { rewrite St, G, String.eqb_refl. cbn [negb snd os log trace].
    split; [reflexivity|]. intros _. eexists. split; reflexivity. }
  unfold os_WriteFile.
  destruct (decide (filep v ∈ write_fault (os w))) as [F|F]; cbn [snd fst os].
  - rewrite St, G. apply String.eqb_neq in Hne. rewrite Hne. cbn [negb].
    destruct (decide (filep v ∈ write_fault (os w))); [|contradiction].
    cbn [snd os trace]. split; [reflexivity|discriminate].
  - fold (set_file (filep v) view (os w)).
    rewrite (stored_set_file v view (os w) content St).
    destruct (verify v && negb (String.eqb view EmptyString));
      cbn [snd os log trace].
    + split; [reflexivity|]. intros _. eexists. split; reflexivity.
    + rewrite String.eqb_refl. cbn [negb snd os log trace].
      split; [reflexivity|]. intros _. eexists. split; reflexivity.
Qed.

Lemma X7_witness :
  exists calls,
    trace (snd (Run (board false) "xo" (snd (Run (board false) "xo" world0))))
    = (trace (snd (Run (board false) "xo" world0)) ++ calls)%list
    /\ List.filter is_write calls = [].
Proof.
  apply (X7_Run_twice (board false) "xo" world0). reflexivity.
Defined.

(** X8: [Run] returns an error exactly when the read fails for another
    reason than the file not existing, or when the write it tries fails;
    what a failing [equal] finds is never an error.  In the first case
    the error of the read is returned after this one call: nothing is
    compared and nothing written. *)
Theorem X8_Run_errors (v : Snapshot) (view : string) (w : World) (e : error) :
  (os_ReadFile (filep v) (os w) = inr e -> IsNotExist e = false ->
   Run v view w = (Done (Some e), log w [CallReadFile (filep v)]))
  /\ (fst (Run v view w) = Done (Some e) <->
      (os_ReadFile (filep v) (os w) = inr e /\ IsNotExist e = false)
      \/ (exists content,
            fst (read v w) = Done (content, None)
            /\ (verify v = false \/ content = EmptyString)
            /\ view <> content
            /\ fst (os_WriteFile (filep v) view (os w)) = Some e)).
Proof.
  rewrite Run_run, read_run. cbn [fst]. unfold stored. split.
  - intros E N. now rewrite E, N.
  - destruct (os_ReadFile (filep v) (os w)) as [b|e'] eqn:R.
    + destruct (verify v && negb (String.eqb b EmptyString)) eqn:G.
      * split; [discriminate|].
        intros [[D _]|(content & C & VC & _)]; [discriminate|].
        injection C as <-. apply andb_prop in G. destruct G as [Gv Gc].
        apply negb_true_iff, String.eqb_neq in Gc.
        destruct VC; congruence.
      * destruct (String.eqb_spec view b) as [->|Hne]; cbn [negb fst].
        -- split; [discriminate|].
           intros [[D _]|(content & C & _ & Nc & _)]; [discriminate|].
           injection C as <-. congruence.
        -- split.
           ++ intros D. injection D as D. right. exists b.
              split; [reflexivity|]. split; [|auto].
              apply andb_false_iff in G. destruct G as [G|G]; [auto|right].
              apply negb_false_iff in G. now apply String.eqb_eq.
           ++ intros [[D _]|(content & C & _ & _ & W)]; [discriminate|].
              now rewrite W.
    + destruct (IsNotExist e') eqn:N; cbn [fst].
      * destruct (verify v && negb (String.eqb EmptyString EmptyString)) eqn:G;
          [rewrite String.eqb_refl, andb_false_r in G; discriminate|].
        destruct (String.eqb_spec view EmptyString) as [->|Hne]; cbn [negb fst].
        -- split; [discriminate|].
           intros [[D Ne]|(content & C & _ & Nc & _)]; [congruence|].
           injection C as <-. congruence.
        -- split.
           ++ intros D. injection D as D. right. exists EmptyString. auto.
           ++ intros [[D Ne]|(content & C & _ & _ & W)]; [congruence|].
              now rewrite W.
      * split.
        -- intros D. injection D as <-. auto.
        -- intros [[D _]|(content & C & _)]; [congruence|discriminate].
Qed.

Lemma X8_witness :
  Run (board true) "xo"
      (mkWorld (mkOS ∅ {["testdata/board"]} ∅) [])
  = (Done (Some (ErrOther "open" "testdata/board")),
     log (mkWorld (mkOS ∅ {["testdata/board"]} ∅) [])
         [CallReadFile (filep (board true))]).
Proof.
  apply (X8_Run_errors (board true) "xo"
           (mkWorld (mkOS ∅ {["testdata/board"]} ∅) [])
           (ErrOther "open" "testdata/board")); reflexivity.
Defined.

(** X9: the first run under verify: over a file that does not exist or is
    empty, a verifying run with a view that is not empty writes the view
    and does not call [equal]. *)
Theorem X9_first_run_under_verify (v : Snapshot) (view : string) (w : World) :
  verify v = true ->
  fst (read v w) = Done (EmptyString, None) ->
  view <> EmptyString ->
  filep v ∉ write_fault (os w) ->
  Run v view w
  = (Done None,
     mkWorld (set_file (filep v) view (os w))
             (trace w ++ [CallReadFile (filep v); CallWriteFile (filep v) view])).
Proof.
  intros Hv Hr Hne Hw. rewrite read_run in Hr. cbn [fst] in Hr.
  injection Hr as Hr. rewrite Run_run, Hr, Hv. cbn [andb negb String.eqb].
  apply String.eqb_neq in Hne. rewrite Hne. cbn [negb].
  unfold os_WriteFile. destruct (decide _); [contradiction|reflexivity].
Qed.

Lemma X9_witness :
  Run (board true) "xo" world0
  = (Done None,
     mkWorld (set_file (filep (board true)) "xo" (os world0))
             (trace world0 ++ [CallReadFile (filep (board true));
                               CallWriteFile (filep (board true)) "xo"])).
Proof.
  apply (X9_first_run_under_verify (board true) "xo" world0).
  - reflexivity.
  - reflexivity.
  - discriminate.
  - vm_compute. discriminate.
Defined.

(** X10: what [write] has written, [read] reads back byte for byte, when
    the file can be read at all; and [read] leaves the file system as it
    is. *)
Theorem X10_write_read_round_trip
    (v : Snapshot) (content : string) (w w' : World) :
  filep v ∉ read_fault (os w) ->
  write v content w = (Done None, w') ->
  fst (read v w') = Done (content, None)
  /\ os (snd (read v w')) = os w'.
Proof.
  intros Hr. unfold write. rewrite WriteFile_run, !read_run.
  unfold os_WriteFile. destruct (decide _); cbn [fst snd]; [discriminate|].
  intros E; inversion E; subst w'. cbn [fst snd os log]. split; [|reflexivity].
  f_equal. unfold stored, os_ReadFile. cbn [read_fault files].
  destruct (decide _); [contradiction|]. now rewrite lookup_insert_eq.
Qed.

Lemma X10_witness :
  fst (read (board false) (snd (write (board false) "xo" world0)))
  = Done ("xo", None)
  /\ os (snd (read (board false) (snd (write (board false) "xo" world0))))
     = os (snd (write (board false) "xo" world0)).
Proof.
  apply (X10_write_read_round_trip (board false) "xo" world0
           (snd (write (board false) "xo" world0))).
  - vm_compute. discriminate.
  - reflexivity.
Defined.

(** ** The replay *)

Lemma quiet_refl (w : World) : quiet w w.
Proof. split; reflexivity. Qed.

Lemma quiet_trans (w1 w2 w3 : World) : quiet w1 w2 -> quiet w2 w3 -> quiet w1 w3.
Proof. intros [A B] [C D]. split; congruence. Qed.

Lemma quiet_log (w : World) (calls : list Call) :
  List.filter is_write calls = [] -> quiet w (log w calls).
Proof.
  intros E. split; [reflexivity|]. cbn [log trace].
  now rewrite List.filter_app, E, app_nil_r.
Qed.

Section ReplayMore.

Context `{Platform} {S : Type} `{Model S}.

Lemma settle_calls_no_write (n : nat) (m : S) (cmd : Cmd) :
  List.filter is_write (settle_calls n m cmd) = [].
Proof.
  revert m cmd; induction n as [|n IH]; intros m [c|]; cbn; try reflexivity.
  destruct (Update m (c tt)). apply IH.
Qed.

Lemma runUpdates_quiet (m : S) (msg : Msg) (w : World) :
  quiet w (snd (runUpdates m msg w)).
Proof.
  rewrite runUpdates_run. cbn [snd]. apply quiet_log.
  cbn [List.filter is_write]. apply settle_calls_no_write.
Qed.

Lemma deliver_quiet (group : list string) (m : S) (w : World) :
  quiet w (snd (deliver group m w)).
Proof.
  revert m w; induction group as [|each rest IH]; intros m w.
  - apply quiet_refl.
  - cbn [deliver]. rewrite bind_run.
    pose proof (runUpdates_quiet m (MsgKey (createKey each)) w) as Q.
    destruct (runUpdates m (MsgKey (createKey each)) w) as [[m'|p] w1];
      cbn [snd] in *; [|exact Q].
    exact (quiet_trans _ _ _ Q (IH m' w1)).
Qed.

(** What [runSnapshot] does with the result of [Run]. *)
Lemma runSnapshot_run (snapshotSuite : SnapshotSuite) (verify : bool)
    (seriesID : string) (equal : VerifyFunc) (m : S) (i : Z) (w : World) :
  runSnapshot snapshotSuite verify seriesID equal m i w
  = match Run (NewSnapshot snapshotSuite (fmt.Sprintf_s_03d seriesID i)
                           verify equal)
              (View m)
              (log w [CallNewSnapshot (fmt.Sprintf_s_03d seriesID i) verify;
                      CallView]) with
    | (Done None, w') => (Done tt, w')
    | (Done (Some e), w') => (Panicked (PanicError e), w')
    | (Panicked p, w') => (Panicked p, w')
    end.
Proof.
  unfold runSnapshot.
  rewrite bind_run, call_run, bind_run, m_View_run, log_log, bind_run.
  cbn [app].
  destruct (Run _ (View m) _) as [[[e|]|p] w']; reflexivity.
Qed.

Lemma runSnapshot_unreadable (snapshotSuite : SnapshotSuite) (verify : bool)
    (seriesID : string) (equal : VerifyFunc) (m : S) (i : Z) (w : World)
    (e : error) :
  os_ReadFile (filepath_Join (rootDir snapshotSuite)
                             (fmt.Sprintf_s_03d seriesID i)) (os w) = inr e ->
  IsNotExist e = false ->
  runSnapshot snapshotSuite verify seriesID equal m i w
  = (Panicked (PanicError e),
     log w [CallNewSnapshot (fmt.Sprintf_s_03d seriesID i) verify;
            CallView;
            CallReadFile (filepath_Join (rootDir snapshotSuite)
                                        (fmt.Sprintf_s_03d seriesID i))]).
Proof.
  intros E N. rewrite runSnapshot_run, Run_run.
  unfold stored, NewSnapshot, deriveSnapshotFilep. cbn [filep os log].
  now rewrite E, N, log_log.
Qed.

(** X11: a failure of the store is fatal: when the file of a snapshot
    cannot be read for another reason than not existing, [runSnapshot]
    panics with the error of the read; at snapshot 0 this ends the replay
    before any token of the script is delivered. *)
Theorem X11_store_failure_is_fatal (snapshotSuite : SnapshotSuite) (m : S)
    (verify : bool) (seriesID : string) (equal : VerifyFunc) (w : World)
    (e : error) :
  (forall (m' : S) (i : Z) (w' : World),
      os_ReadFile (filepath_Join (rootDir snapshotSuite)
                                 (fmt.Sprintf_s_03d seriesID i)) (os w') = inr e ->
      IsNotExist e = false ->
      runSnapshot snapshotSuite verify seriesID equal m' i w'
      = (Panicked (PanicError e),
         log w' [CallNewSnapshot (fmt.Sprintf_s_03d seriesID i) verify;
                 CallView;
                 CallReadFile (filepath_Join (rootDir snapshotSuite)
                                             (fmt.Sprintf_s_03d seriesID i))]))
  /\ (forall b : string,
        os_ReadFile (filepath_Join (rootDir snapshotSuite)
                                   (fmt.Sprintf_s_txt seriesID)) (os w) = inl b ->
        os_ReadFile (filepath_Join (rootDir snapshotSuite)
                                   (fmt.Sprintf_s_03d seriesID 0)) (os w) = inr e ->
        IsNotExist e = false ->
        let msg0 := Msg_of_Cmd (Init m) in
        let m1 := fst (Update m msg0) in
        let c1 := snd (Update m msg0) in
        settles_within 99 m1 c1 = true ->
        RunBubbleTeaSnapshots snapshotSuite m verify seriesID equal w
        = (Panicked (PanicError e),
           log w ([CallReadFile (filepath_Join (rootDir snapshotSuite)
                                               (fmt.Sprintf_s_txt seriesID));
                   CallInit; CallView; CallUpdate msg0]
                  ++ settle_calls 99 m1 c1
                  ++ [CallNewSnapshot (fmt.Sprintf_s_03d seriesID 0) verify;
                      CallView;
                      CallReadFile (filepath_Join (rootDir snapshotSuite)
                                                  (fmt.Sprintf_s_03d seriesID 0))]))).
Proof.
  split.
  - intros. now apply runSnapshot_unreadable.
  - intros b Eb E0 N msg0 m1 c1 St. unfold RunBubbleTeaSnapshots.
    rewrite bind_run, readMessageGroups_run, Eb.
    rewrite bind_run, m_Init_run, log_log.
    rewrite bind_run, m_View_run, log_log.
    rewrite bind_run, runUpdates_run, log_log.
    fold msg0 m1 c1. rewrite St, bind_run.
    set (w1 := log w _).
    rewrite (runSnapshot_unreadable snapshotSuite verify seriesID equal
               (settled 99 m1 c1) 0 w1 e E0 N).
    subst w1. rewrite log_log, <- !app_assoc. reflexivity.
Qed.

Lemma runSnapshot_verified (snapshotSuite : SnapshotSuite)
    (seriesID : string) (equal : VerifyFunc) (m : S) (i : nat) (w : World) :
  baseline (os w) (rootDir snapshotSuite) seriesID i ->
  fst (runSnapshot snapshotSuite true seriesID equal m (Z.of_nat i) w) = Done tt
  /\ quiet w (snd (runSnapshot snapshotSuite true seriesID equal m (Z.of_nat i) w)).
Proof.
  intros (content & E & Hne). rewrite runSnapshot_run.
  rewrite (Run_verify_steady
             (NewSnapshot snapshotSuite
                (fmt.Sprintf_s_03d seriesID (Z.of_nat i)) true equal)
             (View m) content
             (log w [CallNewSnapshot (fmt.Sprintf_s_03d seriesID (Z.of_nat i))
                       true; CallView])
             eq_refl E Hne).
  cbn [fst snd]. split; [reflexivity|]. split; [reflexivity|].
  cbn [trace log]. rewrite !List.filter_app. cbn. now rewrite !app_nil_r.
Qed.

Lemma replay_groups_verified (snapshotSuite : SnapshotSuite)
    (seriesID : string) (equal : VerifyFunc)
    (messageGroups : list (list string)) (i : nat) (m : S) (w : World) :
  (forall j : nat, (i < j <= i + List.length messageGroups)%nat ->
                   baseline (os w) (rootDir snapshotSuite) seriesID j) ->
  quiet w (snd (replay_groups snapshotSuite true seriesID equal i
                              messageGroups m w)).
Proof.
  revert i m w; induction messageGroups as [|group rest IH]; intros i m w B.
  - apply quiet_refl.
  - cbn [replay_groups]. rewrite bind_run.
    pose proof (deliver_quiet group m w) as Q1.
    destruct (deliver group m w) as [[m'|p] w1]; cbn [snd] in *; [|exact Q1].
    rewrite bind_run.
    replace (Z.of_nat i + 1) with (Z.of_nat (Datatypes.S i)) by lia.
    assert (B1 : baseline (os w1) (rootDir snapshotSuite) seriesID (Datatypes.S i)).
    { destruct Q1 as [-> _]. apply B. cbn [List.length]. lia. }
    destruct (runSnapshot_verified snapshotSuite seriesID equal m'
                (Datatypes.S i) w1 B1) as [D Q2].
    destruct (runSnapshot snapshotSuite true seriesID equal m'
                (Z.of_nat (Datatypes.S i)) w1) as [[[]|p] w2];
      cbn [fst snd] in *; [|discriminate].
    apply (quiet_trans _ _ _ Q1), (quiet_trans _ _ _ Q2), IH.
    intros j Hj. destruct Q1 as [Q1 _], Q2 as [Q2 _]. rewrite Q2, Q1.
    apply B. cbn [List.length]. lia.
Qed.

(** X12: a verifying replay over recorded baselines leaves the file system
    as it is and writes nothing, whatever the model renders. *)
Theorem X12_verifying_replay_keeps_files (snapshotSuite : SnapshotSuite)
    (m : S) (seriesID : string) (equal : VerifyFunc) (w : World) (b : string) :
  os_ReadFile (filepath_Join (rootDir snapshotSuite)
                             (fmt.Sprintf_s_txt seriesID)) (os w) = inl b ->
  (forall i : nat, (i <= List.length (parseGroups b))%nat ->
                   baseline (os w) (rootDir snapshotSuite) seriesID i) ->
  os (snd (RunBubbleTeaSnapshots snapshotSuite m true seriesID equal w)) = os w
  /\ List.filter is_write
       (trace (snd (RunBubbleTeaSnapshots snapshotSuite m true seriesID equal w)))
     = List.filter is_write (trace w).
Proof.
  intros Eb B. change (quiet w (snd (RunBubbleTeaSnapshots snapshotSuite m true
                                       seriesID equal w))).
  unfold RunBubbleTeaSnapshots.
  rewrite bind_run, readMessageGroups_run, Eb.
  rewrite bind_run, m_Init_run, log_log.
  rewrite bind_run, m_View_run, log_log, bind_run.
  set (w0 := log w _).
  assert (Q0 : quiet w w0) by (apply quiet_log; reflexivity).
  pose proof (runUpdates_quiet m (Msg_of_Cmd (Init m)) w0) as Q1.
  destruct (runUpdates m (Msg_of_Cmd (Init m)) w0) as [[m'|p] w1];
    cbn [snd] in *; [|exact (quiet_trans _ _ _ Q0 Q1)].
  rewrite bind_run.
  assert (Ew1 : os w1 = os w) by (destruct Q0, Q1; congruence).
  assert (B0 : baseline (os w1) (rootDir snapshotSuite) seriesID 0).
  { rewrite Ew1. apply B. lia. }
  destruct (runSnapshot_verified snapshotSuite seriesID equal m' O w1 B0)
    as [D Q2].
  change (Z.of_nat 0) with 0 in *.
  destruct (runSnapshot snapshotSuite true seriesID equal m' 0 w1)
    as [[[]|p] w2]; cbn [fst snd] in *; [|discriminate].
  apply (quiet_trans _ _ _ Q0), (quiet_trans _ _ _ Q1), (quiet_trans _ _ _ Q2).
  apply replay_groups_verified. intros j Hj.
  destruct Q2 as [-> _]. rewrite Ew1. apply B. lia.
Qed.

End ReplayMore.

Lemma X11_witness :
  @runSnapshot unix unit still (NewSnapshotSuite "testdata") true "run1"
               never_fails tt 0
               (mkWorld (mkOS ∅ {["testdata/run1_000"]} ∅) [])
  = (Panicked (PanicError (ErrOther "open" "testdata/run1_000")),
     log (mkWorld (mkOS ∅ {["testdata/run1_000"]} ∅) [])
         [CallNewSnapshot "run1_000" true; CallView;
          CallReadFile "testdata/run1_000"]).
Proof.
  apply (proj1 (@X11_store_failure_is_fatal unix unit still
                  (NewSnapshotSuite "testdata") tt true "run1" never_fails
                  world0 (ErrOther "open" "testdata/run1_000"))).
  - reflexivity.
  - reflexivity.
Defined.

Lemma X12_witness :
  os (snd (@RunBubbleTeaSnapshots unix unit still
             (NewSnapshotSuite "testdata") tt true "run1" fails_on_mismatch
             (mkWorld recorded_os [])))
  = recorded_os
  /\ List.filter is_write
       (trace (snd (@RunBubbleTeaSnapshots unix unit still
                      (NewSnapshotSuite "testdata") tt true "run1"
                      fails_on_mismatch (mkWorld recorded_os []))))
     = [].
Proof.
  apply (@X12_verifying_replay_keeps_files unix unit still
           (NewSnapshotSuite "testdata") tt "run1" fails_on_mismatch
           (mkWorld recorded_os []) "# no event").
  - reflexivity.
  - intros i Hi. assert (i = O) as -> by (vm_compute in Hi; lia).
    exists "old view". split; [reflexivity|discriminate].
Defined.

(** ** The names of the snapshots *)

Lemma string_app_inv_head (a b c : string) : a ++ b = a ++ c -> b = c.
Proof.
  induction a as [|x a IH]; [auto|].
  rewrite !app_cons. intros E. injection E as E. auto.
Qed.

Lemma zeros_lead0 (k : nat) (u : Decimal.uint) :
  fmt.zeros k ++ NilEmpty.string_of_uint u
  = NilEmpty.string_of_uint (lead0 k u).
Proof.
  induction k as [|k IH]; [reflexivity|].
  cbn [fmt.zeros lead0 NilEmpty.string_of_uint]. rewrite app_cons. now rewrite IH.
Qed.

Lemma of_uint_lead0 (k : nat) (u : Decimal.uint) :
  N.of_uint (lead0 k u) = N.of_uint u.
Proof. induction k as [|k IH]; [reflexivity|]. exact IH. Qed.

Lemma string_of_uint_inj (u u' : Decimal.uint) :
  NilEmpty.string_of_uint u = NilEmpty.string_of_uint u' -> u = u'.
Proof.
  intros E. apply (f_equal NilEmpty.uint_of_string) in E.
  rewrite !NilEmpty.usu in E. now injection E.
Qed.

Lemma pad0_inj (width : nat) (n n' : N) :
  fmt.pad0 width (fmt.decimal n) = fmt.pad0 width (fmt.decimal n') -> n = n'.
Proof.
  unfold fmt.pad0, fmt.decimal. rewrite !zeros_lead0. intros E.
  apply string_of_uint_inj in E. apply (f_equal N.of_uint) in E.
  now rewrite !of_uint_lead0, !DecimalN.Unsigned.of_to in E.
Qed.

(** X13: the snapshots of a run have names of their own: two different
    indices never have the same name, also past 999, where the name gets
    longer; so the names of a replay are pairwise distinct. *)
Theorem X13_snapshot_names_distinct (seriesID : string) :
  (forall i j : nat,
      i <> j -> snapshot_name seriesID i <> snapshot_name seriesID j)
  /\ (forall k : nat, NoDup (List.map (snapshot_name seriesID) (seq 0 k))).
Proof.
  assert (I : forall i j : nat,
             snapshot_name seriesID i = snapshot_name seriesID j -> i = j).
  { intros i j E. unfold snapshot_name, fmt.Sprintf_s_03d in E.
    apply string_app_inv_head, string_app_inv_head in E.
    unfold fmt.d03 in E.
    destruct (Z.ltb_spec (Z.of_nat i) 0); [lia|].
    destruct (Z.ltb_spec (Z.of_nat j) 0); [lia|].
    apply pad0_inj in E. lia. }
  split; [intros i j Hne E; apply Hne, I, E|].
  intros k. apply NoDup_fmap_2; [|apply NoDup_seq].
  intros i j. apply I.
Qed.

Lemma X13_witness : snapshot_name "run1" 999 <> snapshot_name "run1" 1000.
Proof.
  apply (proj1 (X13_snapshot_names_distinct "run1") 999%nat 1000%nat). lia.
Defined.

(** * Properties of package gent *)

#[local] Set Warnings "-clear-no-such-hyp".

Section SetProperties.

Context {T : Type} `{Countable T}.

Implicit Types (v s : gent.Set_ T) (item x : T).

Lemma Has_dom item v : gent.Has item v = true <-> item ∈ dom (gent.m v).
Proof.
  unfold gent.Has. rewrite elem_of_dom.
  destruct (gent.m v !! item); split; intros E; try done; by destruct E.
Qed.

Lemma Has_false item v : gent.Has item v = false <-> gent.m v !! item = None.
Proof. unfold gent.Has. destruct (gent.m v !! item); split; done. Qed.

(** X14: [Add] says whether the item is new; afterwards the item is in the
    set, the other items are in it as before, and the length has grown by
    one exactly when the item was new; adding an item that is there leaves
    the set as it is. *)
Theorem X14_Set_Add item v :
  fst (gent.Add item v) = negb (gent.Has item v)
  /\ gent.Has item (snd (gent.Add item v)) = true
  /\ (forall x, x <> item ->
        gent.Has x (snd (gent.Add item v)) = gent.Has x v)
  /\ gent.Len (snd (gent.Add item v))
     = gent.Len v + (if fst (gent.Add item v) then 1 else 0)
  /\ (gent.Has item v = true -> snd (gent.Add item v) = v).
Proof.
  unfold gent.Add, gent.Has, gent.Len.
  destruct (gent.m v !! item) as [b|] eqn:E; cbn [fst snd negb gent.m].
  - rewrite E. repeat split; auto. lia.
  - rewrite lookup_insert_eq. repeat split; auto.
    + intros x Hx. now rewrite lookup_insert_ne.
    + rewrite map_size_insert_None by assumption. lia.
    + discriminate.
Qed.

(** X15: [Remove] says whether the item was there; afterwards the item is
    not in the set, the other items are in it as before, and the length
    has gone down by one exactly when the item was there. *)
Theorem X15_Set_Remove item v :
  fst (gent.Remove item v) = gent.Has item v
  /\ gent.Has item (snd (gent.Remove item v)) = false
  /\ (forall x, x <> item ->
        gent.Has x (snd (gent.Remove item v)) = gent.Has x v)
  /\ gent.Len (snd (gent.Remove item v))
     = gent.Len v - (if fst (gent.Remove item v) then 1 else 0).
Proof.
  unfold gent.Remove, gent.Has, gent.Len. cbn [fst snd gent.m].
  rewrite lookup_delete_eq. repeat split; auto.
  - intros x Hx. now rewrite lookup_delete_ne.
  - destruct (gent.m v !! item) as [b|] eqn:E.
    + pose proof (map_size_delete_Some item (gent.m v) (mk_is_Some _ _ E)).
      assert (size (gent.m v) <> O).
      { intros Z0. apply map_size_empty_inv in Z0. rewrite Z0 in E.
        by rewrite lookup_empty in E. }
      lia.
    + rewrite map_size_delete_None by assumption. lia.
Qed.

(** X16: adding an item that is not in the set and removing it again
    gives the set back as it was. *)
Theorem X16_Set_Add_Remove item v :
  gent.Has item v = false ->
  gent.Remove item (snd (gent.Add item v)) = (true, v).
Proof.
  intros E. apply Has_false in E. unfold gent.Remove, gent.Add.
  rewrite E. cbn [fst snd gent.m].
  rewrite lookup_insert_eq, delete_insert_eq, delete_id by assumption.
  now destruct v.
Qed.

Lemma NewSet_dom_from (items : list T) v :
  dom (gent.m (fold_left (fun set each => snd (gent.Add each set)) items v))
  = list_to_set items ∪ dom (gent.m v).
Proof.
  revert v; induction items as [|a items IH]; intros v; cbn [fold_left].
  - cbn. set_solver.
  - rewrite IH. cbn [list_to_set]. unfold gent.Add.
    destruct (gent.m v !! a) as [b|] eqn:E; cbn [snd gent.m].
    + assert (a ∈ dom (gent.m v)) by (apply elem_of_dom; eauto). set_solver.
    + rewrite dom_insert_L. set_solver.
Qed.

Lemma Len_dom v : gent.Len v = Z.of_nat (size (dom (gent.m v))).
Proof. unfold gent.Len. now rewrite size_dom. Qed.

Lemma size_list_to_set_le (items : list T) :
  (size (list_to_set items : gset T) <= List.length items)%nat.
Proof.
  induction items as [|a items IH]; cbn [list_to_set List.length].
  - now rewrite size_empty.
  - rewrite size_union_alt, size_singleton.
    assert (size (list_to_set items ∖ {[a]} : gset T)
            <= size (list_to_set items : gset T))%nat
      by (apply subseteq_size; set_solver).
    lia.
Qed.

(** X17: [NewSet(items...)] holds exactly the items given; its length is
    the number of different items, so at most the number of items, and the
    number of items when none is given twice. *)
Theorem X17_NewSet (items : list T) :
  (forall x, gent.Has x (gent.NewSet items) = true <-> x ∈ items)
  /\ gent.Len (gent.NewSet items)
     = Z.of_nat (size (list_to_set items : gset T))
  /\ gent.Len (gent.NewSet items) <= Z.of_nat (List.length items)
  /\ (NoDup items -> gent.Len (gent.NewSet items) = Z.of_nat (List.length items)).
Proof.
  assert (D : dom (gent.m (gent.NewSet items)) = list_to_set items).
  { unfold gent.NewSet. rewrite NewSet_dom_from. cbn [gent.m].
    rewrite dom_empty_L. set_solver. }
  split; [|split; [|split]].
  - intros x. rewrite Has_dom, D. apply elem_of_list_to_set.
  - now rewrite Len_dom, D.
  - rewrite Len_dom, D. apply inj_le, size_list_to_set_le.
  - intros ND. rewrite Len_dom, D. f_equal. now apply size_list_to_set.
Qed.

Lemma Equal_loop_spec (order : list T) s :
  gent.Equal_loop order s = true <-> (forall x, x ∈ order -> gent.Has x s = true).
Proof.
  induction order as [|a order IH]; cbn [gent.Equal_loop].
  - split; [intros _ x Hx; by apply elem_of_nil in Hx|done].
  - destruct (gent.Has a s) eqn:E; cbn [negb].
    + rewrite IH. split.
      * intros A x Hx. apply elem_of_cons in Hx. destruct Hx as [->|Hx]; auto.
      * intros A x Hx. apply A. apply elem_of_cons. auto.
    + split; [discriminate|]. intros A.
      rewrite <- E. apply A. apply elem_of_cons. auto.
Qed.

Lemma range_of_elem (order : list T) v x :
  gent.range_of v order -> (x ∈ order <-> x ∈ dom (gent.m v)).
Proof.
  unfold gent.range_of. intros P. rewrite P, elem_of_dom.
  rewrite list_elem_of_fmap. split.
  - intros ([k b] & -> & Hin). apply elem_of_map_to_list in Hin. eauto.
  - intros [b E]. exists (x, b). split; [reflexivity|].
    now apply elem_of_map_to_list.
Qed.

(** X18: [Equal] holds exactly when the two sets have the same items,
    whatever the order in which the map is ranged over; so it is
    symmetric. *)
Theorem X18_Set_Equal (order order' : list T) v s :
  gent.range_of v order -> gent.range_of s order' ->
  (gent.Equal order v s = true <->
     forall x, gent.Has x v = gent.Has x s)
  /\ gent.Equal order v s = gent.Equal order' s v.
Proof.
  assert (C : forall (o : list T) (a b : gent.Set_ T), gent.range_of a o ->
                (gent.Equal o a b = true <-> dom (gent.m a) = dom (gent.m b))).
  { intros o a b R. unfold gent.Equal, gent.Len.
    destruct (Z.eqb_spec (Z.of_nat (size (gent.m a))) (Z.of_nat (size (gent.m b))))
      as [Es|Es]; cbn [negb].
    - rewrite Equal_loop_spec. split.
      + intros A. apply set_subseteq_size_eq.
        * intros x Hx. apply Has_dom, A. now apply (range_of_elem o a x R).
        * rewrite !size_dom. lia.
      + intros D x Hx. apply Has_dom. rewrite <- D.
        now apply (range_of_elem o a x R).
    - split; [discriminate|]. intros D. exfalso. apply Es.
      now rewrite <- (size_dom (D:=gset T) (gent.m a)), D, size_dom. }
  assert (HD : dom (gent.m v) = dom (gent.m s) <->
               forall x, gent.Has x v = gent.Has x s).
  { split.
    - intros D x. apply eq_true_iff_eq. now rewrite !Has_dom, D.
    - intros A. apply set_eq. intros x. rewrite <- !Has_dom. now rewrite A. }
  intros R R'. split.
  - now rewrite (C order v s R).
  - apply eq_true_iff_eq. rewrite (C order v s R), (C order' s v R').
    split; congruence.
Qed.

Lemma ToSlice_from (order keys : list T) :
  fold_left (fun keys each => (keys ++ [each])%list) order keys
  = (keys ++ order)%list.
Proof.
  revert keys; induction order as [|a order IH]; intros keys; cbn [fold_left].
  - now rewrite app_nil_r.
  - rewrite IH, <- app_assoc. reflexivity.
Qed.

(** X19: [ToSlice] returns each item of the set once and nothing else,
    whatever the order in which the map is ranged over: the slice has the
    length of the set and no duplicate. *)
Theorem X19_Set_ToSlice (order : list T) v :
  gent.range_of v order ->
  (forall x, x ∈ gent.ToSlice order v <-> gent.Has x v = true)
  /\ NoDup (gent.ToSlice order v)
  /\ Z.of_nat (List.length (gent.ToSlice order v)) = gent.Len v.
Proof.
  intros R. unfold gent.ToSlice. rewrite ToSlice_from. cbn [app].
  split; [|split].
  - intros x. now rewrite Has_dom, (range_of_elem order v x R).
  - unfold gent.range_of in R. rewrite R. apply NoDup_fst_map_to_list.
  - unfold gent.range_of in R. rewrite R. unfold gent.Len.
    now rewrite length_fmap, length_map_to_list.
Qed.


End SetProperties.

Lemma X14_witness :
  gent.Has "z2" (snd (gent.Add "a1" (gent.NewSet ["z2"])))
  = gent.Has "z2" (gent.NewSet ["z2"]).
Proof.
  apply (proj1 (proj2 (proj2 (X14_Set_Add "a1" (gent.NewSet ["z2"]))))).
  discriminate.
Defined.

Lemma X16_witness :
  gent.Remove "teddy" (snd (gent.Add "teddy" (gent.NewSet ["max"])))
  = (true, gent.NewSet ["max"]).
Proof.
  apply (X16_Set_Add_Remove "teddy" (gent.NewSet ["max"])). reflexivity.
Defined.

Lemma X17_witness :
  gent.Len (gent.NewSet ["a1"; "z2"; "b3"; "y4"]) = 4.
Proof.
  apply (proj2 (proj2 (proj2 (X17_NewSet ["a1"; "z2"; "b3"; "y4"])))).
  apply (bool_decide_unpack _). vm_compute. exact I.
Defined.

Lemma X18_witness :
  gent.Equal (gent.some_order (gent.NewSet ["a1"; "z2"]))
             (gent.NewSet ["a1"; "z2"]) (gent.NewSet ["z2"; "a1"; "a1"])
  = gent.Equal (gent.some_order (gent.NewSet ["z2"; "a1"; "a1"]))
               (gent.NewSet ["z2"; "a1"; "a1"]) (gent.NewSet ["a1"; "z2"]).
Proof.
  apply (X18_Set_Equal (gent.some_order (gent.NewSet ["a1"; "z2"]))
           (gent.some_order (gent.NewSet ["z2"; "a1"; "a1"]))
           (gent.NewSet ["a1"; "z2"]) (gent.NewSet ["z2"; "a1"; "a1"]));
    unfold gent.range_of, gent.some_order; reflexivity.
Defined.

Lemma X19_witness :
  Z.of_nat (List.length (gent.ToSlice
                           (gent.some_order (gent.NewSet ["m1"; "o2"; "o2"; "n3"]))
                           (gent.NewSet ["m1"; "o2"; "o2"; "n3"])))
  = gent.Len (gent.NewSet ["m1"; "o2"; "o2"; "n3"]).
Proof.
  apply (X19_Set_ToSlice
           (gent.some_order (gent.NewSet ["m1"; "o2"; "o2"; "n3"]))
           (gent.NewSet ["m1"; "o2"; "o2"; "n3"])).
  unfold gent.range_of, gent.some_order; reflexivity.
Defined.


(** ** Map, Filter and NewOption *)

Lemma Map_loop {T U : Type} (zero : U) (f : T -> U) (rest : list T)
    (done : list U) :
  snd (fold_left
         (fun '(i, mapped) v =>
            (Datatypes.S i, gent.set_index mapped i (f v)))
         rest
         (List.length done,
          Some (done ++ replicate (List.length rest) zero)%list))
  = Some (done ++ List.map f rest)%list.
Proof.
  revert done; induction rest as [|v rest IH]; intros done.
  - reflexivity.
  - cbn [fold_left List.length replicate List.map gent.set_index option_map].
    replace (<[List.length done := f v]>
               (done ++ zero :: replicate (List.length rest) zero)%list)
      with ((done ++ [f v]) ++ replicate (List.length rest) zero)%list.
    + replace (Datatypes.S (List.length done))
        with (List.length (done ++ [f v])%list)
        by (rewrite List.length_app; cbn; lia).
      rewrite IH, <- app_assoc. reflexivity.
    + rewrite insert_app_r_alt by lia. rewrite Nat.sub_diag. cbn.
      now rewrite <- app_assoc.
Qed.

(** X21: [Map] returns, for every input and whatever the zero value of the
    target type, the slice of the values of [f] in the order of the input,
    never the nil slice; it has the length of the input, and mapping
    twice is mapping with the composed function. *)
Theorem X21_Map {T U V : Type} (zero : U) (zero' : V) (s : gent.slice T)
    (f : T -> U) (g : U -> V) :
  gent.Map zero s f = Some (List.map f (gent.elems s))
  /\ List.length (gent.elems (gent.Map zero s f)) = List.length (gent.elems s)
  /\ gent.Map zero' (gent.Map zero s f) g
     = gent.Map zero' s (fun x => g (f x)).
Proof.
  assert (E : forall (A B : Type) (z : B) (h : A -> B) (t : gent.slice A),
             gent.Map z t h = Some (List.map h (gent.elems t))).
  { intros A B z h t. unfold gent.Map, gent.make.
    exact (Map_loop z h (gent.elems t) []). }
  rewrite !E. cbn [gent.elems]. split; [reflexivity|]. split.
  - apply List.length_map.
  - now rewrite List.map_map.
Qed.

Lemma Filter_loop {T : Type} (f : T -> bool) (l : list T) (acc : gent.slice T) :
  fold_left
    (fun filtered v => if f v then gent.append filtered v else filtered)
    l acc
  = match List.filter f l with
    | [] => acc
    | kept => Some (gent.elems acc ++ kept)%list
    end.
Proof.
  revert acc; induction l as [|v l IH]; intros acc; [reflexivity|].
  cbn [fold_left List.filter]. rewrite IH. destruct (f v).
  - destruct (List.filter f l); [reflexivity|].
    unfold gent.append. cbn [gent.elems].
    now rewrite <- app_assoc.
  - reflexivity.
Qed.

(** X22: [Filter] keeps the values for which [f] holds, in their order;
    it returns the nil slice exactly when it keeps none; and filtering
    twice is filtering with both tests. *)
Theorem X22_Filter {T : Type} (s : gent.slice T) (f g : T -> bool) :
  gent.elems (gent.Filter s f) = List.filter f (gent.elems s)
  /\ (gent.Filter s f = None <-> forall x, In x (gent.elems s) -> f x = false)
  /\ gent.Filter (gent.Filter s f) g
     = gent.Filter s (fun x => f x && g x).
Proof.
  assert (E : forall (h : T -> bool) (t : gent.slice T),
             gent.Filter t h = match List.filter h (gent.elems t) with
                               | [] => None
                               | kept => Some kept
                               end).
  { intros h t. unfold gent.Filter. rewrite Filter_loop.
    now destruct (List.filter h (gent.elems t)). }
  split; [|split].
  - rewrite E. now destruct (List.filter f (gent.elems s)).
  - rewrite E. split.
    + intros N x Hin. destruct (f x) eqn:Fx; [|reflexivity].
      assert (I : In x (List.filter f (gent.elems s)))
        by (apply filter_In; auto).
      destruct (List.filter f (gent.elems s)); [destruct I|discriminate].
    + intros A. destruct (List.filter f (gent.elems s)) as [|x l] eqn:F;
        [reflexivity|].
      assert (I : In x (List.filter f (gent.elems s)))
        by (rewrite F; left; reflexivity).
      apply filter_In in I. destruct I as [I Fx]. rewrite (A x I) in Fx.
      discriminate.
  - rewrite !E.
    assert (C : List.filter g (List.filter f (gent.elems s))
                = List.filter (fun x => f x && g x) (gent.elems s)).
    { induction (gent.elems s) as [|x l IH]; [reflexivity|].
      cbn [List.filter]. destruct (f x); cbn [andb List.filter];
        [destruct (g x)|]; now rewrite ?IH. }
    rewrite <- C.
    now destruct (List.filter f (gent.elems s)).
Qed.

Lemma X22_witness :
  gent.Filter (Some [1; 2; 3]) (fun _ : Z => false) = None.
Proof.
  apply (proj1 (proj2 (X22_Filter (Some [1; 2; 3]) (fun _ : Z => false)
                         (fun _ => false)))).
  intros x _. reflexivity.
Defined.

(** X23: [NewOption] applies the options from left to right, each to the
    value the options before it have made: no option gives the value as it
    is, the first option is applied to the value given, the last option
    to the result of all the others (so it has the last word), and the
    options of two lists one after the other are the options of the
    first list and then those of the second on the result. *)
Theorem X23_NewOption_app {T : Type} (t : T) (first second : list (T -> T))
    (o : T -> T) :
  gent.NewOption t [] = t
  /\ gent.NewOption t (o :: second) = gent.NewOption (o t) second
  /\ gent.NewOption t (first ++ [o])%list = o (gent.NewOption t first)
  /\ gent.NewOption t (first ++ second)%list
     = gent.NewOption (gent.NewOption t first) second.
Proof.
  repeat split; try reflexivity; unfold gent.NewOption; apply fold_left_app.
Qed.

(** * Properties of package assfs *)

Lemma Repeat_length (s : string) (count : nat) :
  String.length (assfs.Repeat s count) = (count * String.length s)%nat.
Proof.
  induction count as [|k IH]; [reflexivity|].
  cbn [assfs.Repeat]. rewrite length_app, IH. lia.
Qed.

Section AssertFsProperties.

Context {F E : Type} `{assfs.Afero F E}.

Variable Dir : string -> string.

Lemma Join_ReadLines (filep message : string) (fs : F) (b : string) :
  assfs.ReadFile filep fs = inl b ->
  exists lines, assfs.ReadLines filep message fs = assfs.Pass lines
                /\ Bytes.Join "010" lines = b.
Proof.
  intros E0. unfold assfs.ReadLines. rewrite E0.
  destruct b as [|c b]; cbn [String.length Nat.eqb].
  - now exists [].
  - eexists. split; [reflexivity|]. apply Join_Split.
Qed.

(** X24: [Contains] passes exactly when the file can be read and its whole
    content is the given one: it is a test of equality, not of
    containment. *)
Theorem X24_Contains_is_equality (filep content message : string) (fs : F) :
  assfs.Contains filep content message fs = assfs.Pass tt
  <-> assfs.ReadFile filep fs = inl content.
Proof.
  unfold assfs.Contains. destruct (assfs.ReadFile filep fs) as [b|e] eqn:E0.
  - destruct (Join_ReadLines filep message fs b E0) as (lines & -> & J).
    rewrite J. unfold assfs.Equalf.
    destruct (String.eqb_spec content b) as [->|Hne].
    + split; reflexivity.
    + split; [discriminate|]. intros I. injection I as I. congruence.
  - unfold assfs.ReadLines. rewrite E0. split; discriminate.
Qed.

Lemma string_app_empty_r (s : string) : s ++ EmptyString = s.
Proof.
  induction s as [|c t IH]; [reflexivity|]. rewrite app_cons. now rewrite IH.
Qed.

Lemma doWriteTextFile_pass (filep content message : string) (n : Z) (fs fs' : F) :
  assfs.doWriteTextFile Dir filep content n message fs = (assfs.Pass tt, fs')
  <-> exists fs1,
        assfs.MkdirAll (Dir filep) 448 fs = (None, fs1)
        /\ assfs.WriteFile filep
             (content ++ assfs.Repeat "0" (Z.to_nat n)) 438 fs1
           = (None, fs').
Proof.
  unfold assfs.doWriteTextFile, assfs.AssertFs_MkdirAll.
  destruct (assfs.MkdirAll (Dir filep) 448 fs) as [[e|] fs1].
  - split; [discriminate|]. intros (fs2 & D & _). discriminate.
  - destruct (assfs.WriteFile filep _ 438 fs1) as [[e|] fs2] eqn:W;
      cbn [assfs.Nilf].
    + split; [discriminate|]. intros (fs3 & D & W').
      injection D as <-. rewrite W in W'. discriminate.
    + split.
      * intros I. injection I as <-. now exists fs1.
      * intros (fs3 & D & W'). injection D as <-. rewrite W in W'.
        now injection W' as <-.
Qed.

(** X25: [WriteLargeTextFile] passes exactly when the directory can be
    made and the file written; what it writes is the content followed by
    1026 zeros, [1024^2] being [1024 xor 2] in Go: [len(content) + 1026]
    bytes, not a megabyte more.  [WriteTextFile] writes the content as it
    is. *)
Theorem X25_WriteLargeTextFile_1026 (filep content message : string) (fs fs' : F) :
  (assfs.WriteLargeTextFile Dir filep content message fs = (assfs.Pass tt, fs')
   <-> exists fs1,
         assfs.MkdirAll (Dir filep) 448 fs = (None, fs1)
         /\ assfs.WriteFile filep (content ++ assfs.Repeat "0" 1026) 438 fs1
            = (None, fs'))
  /\ String.length (content ++ assfs.Repeat "0" 1026)
     = (String.length content + 1026)%nat
  /\ (assfs.WriteTextFile Dir filep content message fs = (assfs.Pass tt, fs')
      <-> exists fs1,
            assfs.MkdirAll (Dir filep) 448 fs = (None, fs1)
            /\ assfs.WriteFile filep content 438 fs1 = (None, fs')).
Proof.
  split; [|split].
  - unfold assfs.WriteLargeTextFile. rewrite doWriteTextFile_pass.
    change (Z.to_nat (Z.lxor 1024 2)) with 1026%nat. reflexivity.
  - rewrite length_app, Repeat_length. cbn. lia.
  - unfold assfs.WriteTextFile. rewrite doWriteTextFile_pass.
    change (assfs.Repeat "0" (Z.to_nat 0)) with EmptyString.
    now rewrite string_app_empty_r.
Qed.

(** X26: on a file system where a file that was written reads back as
    written, what [WriteTextFile] has written [Contains] accepts, and
    [ReadLines] returns its lines, none for the empty content. *)
Theorem X26_WriteTextFile_then_Contains
    (filep content message message' : string) (fs fs' : F) :
  (forall (p b : string) (perm : Z) (f f' : F),
      assfs.WriteFile p b perm f = (None, f') -> assfs.ReadFile p f' = inl b) ->
  assfs.WriteTextFile Dir filep content message fs = (assfs.Pass tt, fs') ->
  assfs.Contains filep content message' fs' = assfs.Pass tt
  /\ assfs.ReadLines filep message' fs'
     = assfs.Pass (if (String.length content =? 0)%nat then []
                   else Bytes.Split "010" content).
Proof.
  intros Law W. unfold assfs.WriteTextFile in W.
  apply doWriteTextFile_pass in W. destruct W as (fs1 & _ & W).
  change (assfs.Repeat "0" (Z.to_nat 0)) with EmptyString in W.
  rewrite string_app_empty_r in W. apply Law in W.
  unfold assfs.Contains, assfs.ReadLines. rewrite W.
  destruct content as [|c t]; cbn [String.length Nat.eqb].
  - split; reflexivity.
  - split; [|reflexivity]. rewrite Join_Split. unfold assfs.Equalf.
    now rewrite String.eqb_refl.
Qed.

End AssertFsProperties.

Lemma X26_witness :
  @assfs.Contains _ _ assfs.map_fs "dir/file" "one" "read"
    (snd (@assfs.WriteTextFile _ _ assfs.map_fs (fun _ => "dir") "dir/file"
            "one" "write" ∅))
  = assfs.Pass tt.
Proof.
  apply (@X26_WriteTextFile_then_Contains _ _ assfs.map_fs (fun _ => "dir")
           "dir/file" "one" "write" "read" ∅).
  - intros p b perm f f' W. injection W as <-. cbn.
    now rewrite lookup_insert_eq.
  - reflexivity.
Defined.
